(** * Stack deployment CLI (cli/main.py): model and properties

    The Python module drives [kubectl] through [subprocess.run], logs through
    loguru and reports progress through tqdm.  The model keeps every one of
    these effects as an event of a trace, threads the trace and the logger
    configuration through a state-and-exception monad, and takes the outside
    world (the backend's answers, the file system, the install location of the
    package) as a record [World]. *)

From Stdlib Require Import String Ascii List ZArith Lia Bool FinFun.
Import ListNotations.
Local Open Scope string_scope.
Local Open Scope list_scope.

(** String concatenation, Python's [+] on [str]; [++] stays with lists. *)
Infix "+++" := String.append (right associativity, at level 60).

(** ** Strings *)

(** [includes needle hay]: [needle] occurs in [hay] as a contiguous run. *)
Definition includes (needle hay : string) : Prop :=
  exists pre post, hay = pre +++ needle +++ post.

Fixpoint infixb (needle hay : string) : bool :=
  match hay with
  | EmptyString => prefix needle hay
  | String _ rest => prefix needle hay || infixb needle rest
  end.

(** Python's [sep.join(parts)]. *)
Definition join (sep : string) (parts : list string) : string :=
  String.concat sep parts.

Definition dquote : ascii := ascii_of_nat 34.
Definition squote : ascii := ascii_of_nat 39.
Definition backslash : ascii := ascii_of_nat 92.

Fixpoint mem_char (c : ascii) (s : string) : bool :=
  match s with
  | EmptyString => false
  | String d rest => Ascii.eqb c d || mem_char c rest
  end.

Definition hex_digit (n : nat) : ascii :=
  if Nat.ltb n 10 then ascii_of_nat (48 + n) else ascii_of_nat (87 + n).

(** One character of Python's [repr] of a [str], for the quote [q] chosen.
    Bytes from 128 up are the UTF-8 encoding of non-ASCII characters, which
    [repr] prints unchanged when they are printable. *)
Definition repr_char (q c : ascii) : string :=
  let n := nat_of_ascii c in
  if Ascii.eqb c backslash then String backslash (String backslash EmptyString)
  else if Ascii.eqb c q then String backslash (String q EmptyString)
  else if Nat.eqb n 10 then String backslash "n"
  else if Nat.eqb n 13 then String backslash "r"
  else if Nat.eqb n 9 then String backslash "t"
  else if Nat.ltb n 32 || Nat.eqb n 127 then
    String backslash
      (String "x" (String (hex_digit (n / 16)) (String (hex_digit (n mod 16)) EmptyString)))
  else String c EmptyString.

Fixpoint repr_body (q : ascii) (s : string) : string :=
  match s with
  | EmptyString => EmptyString
  | String c rest => repr_char q c +++ repr_body q rest
  end.

(** Python's [repr(s)] for a [str]: single quotes unless the text holds a
    single quote and no double quote. *)
Definition repr_str (s : string) : string :=
  let q := if mem_char squote s && negb (mem_char dquote s) then dquote else squote in
  String q (repr_body q s +++ String q EmptyString).

(** Python's [repr] of a list of [str], which is also its [str]. *)
Definition repr_list (l : list string) : string :=
  "[" +++ join ", " (map repr_str l) +++ "]".

(** Decimal rendering of an integer, as [%d] prints it. *)
Fixpoint dec_digits (fuel : nat) (n : N) (acc : string) : string :=
  match fuel with
  | O => acc
  | S fuel' =>
      let acc' := String (ascii_of_N (48 + N.modulo n 10)) acc in
      if N.ltb n 10 then acc' else dec_digits fuel' (N.div n 10) acc'
  end.

Definition dec_N (n : N) : string := dec_digits (S (N.to_nat (N.log2 n))) n EmptyString.

Definition dec_Z (z : Z) : string :=
  if Z.ltb z 0 then "-" +++ dec_N (Z.to_N (- z)) else dec_N (Z.to_N z).

(** ** Paths

    A [pathlib.Path] is kept as its string.  [path_join] is the [/] operator
    (and [joinpath]) for a relative child; [basename] is the [.name]
    attribute, the text after the last separator. *)
Definition Path := string.

Definition path_join (dir : Path) (child : string) : Path := dir +++ "/" +++ child.

Fixpoint basename (s : string) : string :=
  match s with
  | EmptyString => EmptyString
  | String _ rest => if mem_char "/" s then basename rest else s
  end.

(** ** The stack registry *)

Record K8sStack := mkK8sStack {
  stack_code : string;
  stack_description : string;
  files : list string
}.

(** The dict [SUPPORT_STACKS], in insertion order. *)
Definition SUPPORT_STACKS : list (string * K8sStack) :=
  [ ("monitoring", mkK8sStack "monitoring" "Prometheus 与 Grafana 监控栈"
       [ "namespace.yaml";
         "prometheus-rbac.yaml";
         "prometheus-config.yaml";
         "prometheus-deployment.yaml";
         "prometheus-service.yaml";
         "grafana-deployment.yaml";
         "grafana-service.yaml";
         "monitoring-ingress.yaml" ]);
    ("elk", mkK8sStack "elk" "ELK 日志收集栈" []);
    ("hadoop", mkK8sStack "hadoop" "Hadoop 大数据处理栈" []) ].

Definition stack_keys : list string := map fst SUPPORT_STACKS.

Fixpoint dict_get {V : Type} (d : list (string * V)) (key : string) : option V :=
  match d with
  | [] => None
  | (k, v) :: rest => if String.eqb k key then Some v else dict_get rest key
  end.

(** ** Processes, exceptions, events *)

Definition Cmd := list string.

(** What [subprocess.run] meets: the child ran and exited with a return code
    (negative: killed by that signal), having written [stderr] to the
    inherited terminal, or the executable could not be started. *)
Inductive ProcResult :=
| Completed (returncode : Z) (stderr : string)
| NotSpawned (errno : Z) (strerror : string).

Record CompletedProcess := mkCompleted { args : Cmd; returncode : Z }.

Inductive Exc :=
| CalledProcessError (rc : Z) (cmd : Cmd)
| FileNotFoundError (path : Path)
| OSError (errno : Z) (strerror : string) (filename : string)
| KeyError (key : string)
| Exit (code : Z).

Inductive Result (A : Type) :=
| Ok (a : A)
| Raise (e : Exc).
Arguments Ok {A} a.
Arguments Raise {A} e.

(** loguru's levels, with their severity numbers. *)
Inductive Level := DEBUG | INFO | SUCCESS | WARNING | ERROR.

Definition level_no (l : Level) : Z :=
  match l with
  | DEBUG => 10 | INFO => 20 | SUCCESS => 25 | WARNING => 30 | ERROR => 40
  end.

Inductive Event :=
| Run (cmd : Cmd) (cwd : option Path) (res : ProcResult)
| Log (lvl : Level) (msg : string) (exc : option Exc)
| Write (msg : string)
| BarOpen (total : nat) (desc : string)
| BarUpdate (n : nat)
| BarClose
| Print (msg : string).

(** The commands handed to [subprocess.run], oldest first. *)
Fixpoint cmds_of (evs : list Event) : list Cmd :=
  match evs with
  | [] => []
  | Run c _ _ :: rest => c :: cmds_of rest
  | _ :: rest => cmds_of rest
  end.

(** The outside world.  The backend's answer and the file system may depend
    on the commands run so far; [cli_files] is where the package [cli] is
    installed; [signal_repr n] is [repr(signal.Signals(n))] where the
    platform has signal [n]. *)
Record World := mkWorld {
  respond : list Cmd -> Cmd -> ProcResult;
  path_exists : list Cmd -> Path -> bool;
  cli_files : Path;
  signal_repr : Z -> option string
}.

(** The state one invocation threads: what happened so far, and the minimum
    levels of loguru's handlers. *)
Record State := mkState { events : list Event; sinks : list Level }.

Definition history (s : State) : list Cmd := cmds_of (events s).

(** A fresh process: nothing has happened, loguru has its default handler. *)
Definition init_state : State := mkState [] [DEBUG].

(** [extend s evs]: the state once [evs] have happened after [s]. *)
Definition extend (s : State) (evs : list Event) : State :=
  mkState (events s ++ evs) (sinks s).

Definition M (A : Type) : Type := State -> Result A * State.

Definition ret {A} (a : A) : M A := fun s => (Ok a, s).

Definition raise {A} (e : Exc) : M A := fun s => (Raise e, s).

Definition bind {A B} (m : M A) (k : A -> M B) : M B :=
  fun s => match m s with
           | (Ok a, s') => k a s'
           | (Raise e, s') => (Raise e, s')
           end.

(** [try: body except Exception as e: handler(e)]: every exception of the
    model derives from [Exception]. *)
Definition try_except {A} (body : M A) (handler : Exc -> M A) : M A :=
  fun s => match body s with
           | (Ok a, s') => (Ok a, s')
           | (Raise e, s') => handler e s'
           end.

Definition emit (e : Event) : M unit :=
  fun s => (Ok tt, extend s [e]).

Notation "x <- m ;; k" := (bind m (fun x => k))
  (at level 61, m at next level, right associativity).
Notation "m ;; k" := (bind m (fun _ => k))
  (at level 61, right associativity).

(** ** The module, function by function *)

Section Program.

Variable w : World.

(** *** Exception messages *)

(** [str(e)], as the f-string in [deploy] renders the caught exception. *)
Definition str_exc (e : Exc) : string :=
  match e with
  | CalledProcessError rc cmd =>
      if Z.ltb rc 0 then
        match signal_repr w (- rc) with
        | Some r => "Command '" +++ repr_list cmd +++ "' died with " +++ r +++ "."
        | None => "Command '" +++ repr_list cmd +++ "' died with unknown signal "
                    +++ dec_Z (- rc) +++ "."
        end
      else "Command '" +++ repr_list cmd +++ "' returned non-zero exit status "
             +++ dec_Z rc +++ "."
  | FileNotFoundError p => p
  | OSError errno strerror filename =>
      "[Errno " +++ dec_Z errno +++ "] " +++ strerror +++ ": " +++ repr_str filename
  | KeyError key => repr_str key
  | Exit _ => EmptyString
  end.

(** *** loguru *)

Definition logger_remove : M unit :=
  fun s => (Ok tt, mkState (events s) []).

Definition logger_add (level : Level) : M unit :=
  fun s => (Ok tt, mkState (events s) (sinks s ++ [level])).

(** One message: every handler whose level admits it writes it once. *)
Definition log_events (handlers : list Level) (lvl : Level) (msg : string)
    (exc : option Exc) : list Event :=
  map (fun _ => Log lvl msg exc)
      (filter (fun k => Z.leb (level_no k) (level_no lvl)) handlers).

Definition logger_log (lvl : Level) (msg : string) (exc : option Exc) : M unit :=
  fun s => (Ok tt, extend s (log_events (sinks s) lvl msg exc)).

Definition logger_debug msg := logger_log DEBUG msg None.
Definition logger_info msg := logger_log INFO msg None.
Definition logger_success msg := logger_log SUCCESS msg None.
Definition logger_warning msg := logger_log WARNING msg None.
Definition logger_error msg := logger_log ERROR msg None.
(** [logger.exception] logs at ERROR with the exception being handled. *)
Definition logger_exception msg (e : Exc) := logger_log ERROR msg (Some e).

(** *** tqdm *)

Definition tqdm_write (msg : string) : M unit := emit (Write msg).

Definition pbar_update (n : nat) : M unit := emit (BarUpdate n).

(** [with tqdm(total=..., desc=...) as pbar: body]: the bar is closed on the
    way out, also when the body raises. *)
Definition with_tqdm {A} (total : nat) (desc : string) (body : M A) : M A :=
  fun s => match emit (BarOpen total desc) s with
           | (_, s1) =>
               match body s1 with
               | (r, s2) => (r, extend s2 [BarClose])
               end
           end.

(** *** The functions of main.py *)

Definition show_cwd (cwd : option Path) : string :=
  match cwd with
  | Some p => p
  | None => "None"
  end.

(** [subprocess.run(cmd, cwd=..., check=check)], for the calls main.py
    makes: a command that names its executable and no working directory.
    (An empty command or a working directory that is missing fail inside
    Python before any child runs; no caller passes either.) *)
Definition subprocess_run (cmd : Cmd) (cwd : option Path) (check : bool)
  : M CompletedProcess :=
  fun s =>
    let res := respond w (history s) cmd in
    let s' := extend s [Run cmd cwd res] in
    match res with
    | NotSpawned errno strerror =>
        (Raise (OSError errno strerror (hd EmptyString cmd)), s')
    | Completed rc _ =>
        if check && negb (Z.eqb rc 0)
        then (Raise (CalledProcessError rc cmd), s')
        else (Ok (mkCompleted cmd rc), s')
    end.

Definition run_cmd (cmd : Cmd) (cwd : option Path) (check : bool)
  : M CompletedProcess :=
  logger_debug ("执行命令: " +++ join " " cmd +++ " (cwd=" +++ show_cwd cwd +++ ")") ;;
  subprocess_run cmd cwd check.

Definition version_cmd : Cmd := ["kubectl"; "version"; "--client"].
Definition context_cmd : Cmd := ["kubectl"; "config"; "current-context"].

Definition ensure_kubectl : M unit :=
  try_except (run_cmd version_cmd None true ;; ret tt)
    (fun e => logger_error "未检测到 kubectl，请安装并确保其在 PATH 中。" ;; raise e) ;;
  try_except (run_cmd context_cmd None true ;; ret tt)
    (fun e => logger_error "未配置当前 Kubernetes 上下文，请先配置 kubectl。" ;; raise e).

Definition apply_cmd (file_path : Path) (dry_run : bool) : Cmd :=
  ["kubectl"; "apply"; "-f"; file_path] ++ (if dry_run then ["--dry-run=server"] else []).

Definition file_exists (p : Path) : M bool :=
  fun s => (Ok (path_exists w (history s) p), s).

Definition apply_yaml (file_path : Path) (dry_run : bool) : M unit :=
  present <- file_exists file_path ;;
  if negb present then
    logger_error ("未找到清单文件: " +++ file_path) ;;
    raise (FileNotFoundError file_path)
  else
    run_cmd (apply_cmd file_path dry_run) None true ;; ret tt.

Definition wait_cmd (label namespace timeout : string) : Cmd :=
  ["kubectl"; "wait"; "--for=condition=ready"; "pod"; "-l"; label; "-n"; namespace;
   "--timeout=" +++ timeout].

Definition kubectl_wait_default_timeout : string := "300s".

Definition kubectl_wait (label namespace : string) (timeout : option string) : M unit :=
  let timeout := match timeout with Some t => t | None => kubectl_wait_default_timeout end in
  run_cmd (wait_cmd label namespace timeout) None true ;; ret tt.

Definition resource_dir_for (stack : string) : Path :=
  path_join (path_join (cli_files w) "resource") stack.

(** [SUPPORT_STACKS[key]]. *)
Definition stacks_getitem (key : string) : M K8sStack :=
  match dict_get SUPPORT_STACKS key with
  | Some st => ret st
  | None => raise (KeyError key)
  end.

(** One turn of the [for fp in files] loop of [deploy]: its [try]/[except]. *)
Definition apply_one (fp : Path) (dry_run : bool) : M unit :=
  try_except
    (tqdm_write ("应用: " +++ basename fp) ;;
     apply_yaml fp dry_run ;;
     pbar_update 1)
    (fun e =>
       tqdm_write ("失败: " +++ basename fp +++ " -> " +++ str_exc e) ;;
       logger_exception ("应用清单失败: " +++ fp) e ;;
       raise (Exit 1)).

(** The loop: the first turn that raises ends it. *)
Fixpoint apply_files (fps : list Path) (dry_run : bool) : M unit :=
  match fps with
  | [] => ret tt
  | fp :: rest => apply_one fp dry_run ;; apply_files rest dry_run
  end.

Definition deploy (stack : string) (dry_run : bool) (timeout : string) (verbose : bool)
  : M unit :=
  logger_remove ;;
  logger_add (if verbose then DEBUG else INFO) ;;
  ensure_kubectl ;;
  if String.eqb stack "monitoring" then
    let monitor_dir := resource_dir_for "monitoring" in
    logger_info "开始部署 Prometheus 与 Grafana 监控栈..." ;;
    st <- stacks_getitem "monitoring" ;;
    let fps := map (path_join monitor_dir) (files st) in
    with_tqdm (length fps) "应用清单" (apply_files fps dry_run) ;;
    if negb dry_run then
      with_tqdm 2 "等待Pod就绪"
        (tqdm_write "等待 Prometheus Pod 就绪..." ;;
         kubectl_wait "app=prometheus" "monitoring" (Some timeout) ;;
         pbar_update 1 ;;
         tqdm_write "等待 Grafana Pod 就绪..." ;;
         kubectl_wait "app=grafana" "monitoring" (Some timeout) ;;
         pbar_update 1) ;;
      logger_success "部署完成！" ;;
      logger_info "通过 Ingress 访问：" ;;
      logger_info "Prometheus: http://k8s.local/prometheus" ;;
      logger_info "Grafana:    http://k8s.local/grafana"
    else
      logger_info "干跑完成，未实际创建资源。"
  else
    logger_error ("未知栈 '" +++ stack +++ "'，可用: monitoring") ;;
    raise (Exit 2).

(** [for stack_code, stack in SUPPORT_STACKS.items(): print(...)]. *)
Fixpoint print_stacks (items : list (string * K8sStack)) : M unit :=
  match items with
  | [] => ret tt
  | (code, st) :: rest =>
      emit (Print ("- " +++ code +++ ": " +++ stack_description st)) ;;
      print_stacks rest
  end.

Definition list_stacks : M unit :=
  emit (Print "支持的 Kubernetes 栈:") ;;
  print_stacks SUPPORT_STACKS.

Definition get_namespace_cmd (stack : string) : Cmd := ["kubectl"; "get"; "namespaces"; stack].
Definition delete_namespace_cmd : Cmd := ["kubectl"; "delete"; "namespaces"; "monitoring"].

Definition delete_stack (stack : string) (verbose : bool) : M unit :=
  logger_remove ;;
  logger_add (if verbose then DEBUG else INFO) ;;
  ensure_kubectl ;;
  result <- run_cmd (get_namespace_cmd stack) None false ;;
  if negb (Z.eqb (returncode result) 0) then
    logger_warning ("命名空间 '" +++ stack +++ "' 不存在，跳过删除。") ;;
    raise (Exit 0)
  else if String.eqb stack "monitoring" then
    logger_info "开始删除 Prometheus 与 Grafana 监控栈..." ;;
    run_cmd delete_namespace_cmd None true ;; ret tt
  else
    logger_error ("未知栈 '" +++ stack +++ "'，可用: monitoring") ;;
    raise (Exit 2).



End Program.

(** A whole invocation, from a fresh process: how it ends, what happened,
    and which commands the backend received. *)
Definition outcome {A} (m : M A) : Result A := fst (m init_state).
Definition trace {A} (m : M A) : list Event := events (snd (m init_state)).
Definition commands {A} (m : M A) : list Cmd := cmds_of (trace m).

(** The process exit status: a command that returns exits 0, [typer.Exit]
    exits with its code, any other exception ends the interpreter with 1. *)
Definition exit_status {A} (r : Result A) : Z :=
  match r with
  | Ok _ => 0
  | Raise (Exit code) => code
  | Raise _ => 1
  end.

(** ** Vocabulary of the properties *)

Definition succeeded (res : ProcResult) : bool :=
  match res with
  | Completed rc _ => Z.eqb rc 0
  | NotSpawned _ _ => false
  end.

(** The two read-only queries of [ensure_kubectl], in the order it runs them. *)
Definition preflight : list Cmd := [version_cmd; context_cmd].

Definition preflight_ok (w : World) : bool :=
  succeeded (respond w [] version_cmd)
  && succeeded (respond w [version_cmd] context_cmd).

(** Applying [fp] after the commands [h] goes through: the file is there and
    the backend accepts it. *)
Definition apply_ok (w : World) (h : list Cmd) (fp : Path) (dry_run : bool) : bool :=
  path_exists w h fp && succeeded (respond w h (apply_cmd fp dry_run)).

Fixpoint applies_ok (w : World) (h : list Cmd) (fps : list Path) (dry_run : bool) : bool :=
  match fps with
  | [] => true
  | fp :: rest =>
      apply_ok w h fp dry_run && applies_ok w (h ++ [apply_cmd fp dry_run]) rest dry_run
  end.

Definition monitoring_names : list string :=
  match dict_get SUPPORT_STACKS "monitoring" with
  | Some st => files st
  | None => []
  end.

(** The manifests [deploy] walks through for the monitoring stack. *)
Definition monitoring_paths (w : World) : list Path :=
  map (path_join (resource_dir_for w "monitoring")) monitoring_names.

(** What a dry run may send, word for word: the two preflight queries and
    kubectl apply -f <path> --dry-run=server. *)
Definition dry_run_safe (c : Cmd) : Prop :=
  c = ["kubectl"; "version"; "--client"]
  \/ c = ["kubectl"; "config"; "current-context"]
  \/ exists fp, c = ["kubectl"; "apply"; "-f"; fp; "--dry-run=server"].

(** The text the operator gets to read: tqdm lines and log records, a log
    record of an exception ending with that exception's message. *)
Definition event_text (w : World) (e : Event) : list string :=
  match e with
  | Write msg => [msg]
  | Print msg => [msg]
  | Log _ msg None => [msg]
  | Log _ msg (Some exc) => [msg; str_exc w exc]
  | _ => []
  end.

Definition messages (w : World) (evs : list Event) : list string :=
  flat_map (event_text w) evs.

Section Vocabulary.

Variable w : World.

(** How [subprocess.run] turns the child's fate into a value or an exception. *)
Definition proc_outcome (res : ProcResult) (cmd : Cmd) (check : bool)
  : Result CompletedProcess :=
  match res with
  | NotSpawned errno strerror => Raise (OSError errno strerror (hd EmptyString cmd))
  | Completed rc _ =>
      if check && negb (Z.eqb rc 0) then Raise (CalledProcessError rc cmd)
      else Ok (mkCompleted cmd rc)
  end.

Definition debug_line (cmd : Cmd) (cwd : option Path) : string :=
  "执行命令: " +++ join " " cmd +++ " (cwd=" +++ show_cwd cwd +++ ")".

(** The exception a failing [apply_yaml] raises. *)
Definition apply_failure (h : list Cmd) (fp : Path) (dry_run : bool) : Exc :=
  if path_exists w h fp then
    match respond w h (apply_cmd fp dry_run) with
    | Completed rc _ => CalledProcessError rc (apply_cmd fp dry_run)
    | NotSpawned errno strerror => OSError errno strerror "kubectl"
    end
  else FileNotFoundError fp.

Definition failure_line (fp : Path) (e : Exc) : string :=
  "失败: " +++ basename fp +++ " -> " +++ str_exc w e.

(** What [deploy] does once [ensure_kubectl] has returned. *)
Definition deploy_after_preflight (stack : string) (dry_run : bool) (timeout : string)
  : M unit :=
  if String.eqb stack "monitoring" then
    let monitor_dir := resource_dir_for w "monitoring" in
    logger_info "开始部署 Prometheus 与 Grafana 监控栈..." ;;
    st <- stacks_getitem "monitoring" ;;
    let fps := map (path_join monitor_dir) (files st) in
    with_tqdm (length fps) "应用清单" (apply_files w fps dry_run) ;;
    if negb dry_run then
      with_tqdm 2 "等待Pod就绪"
        (tqdm_write "等待 Prometheus Pod 就绪..." ;;
         kubectl_wait w "app=prometheus" "monitoring" (Some timeout) ;;
         pbar_update 1 ;;
         tqdm_write "等待 Grafana Pod 就绪..." ;;
         kubectl_wait w "app=grafana" "monitoring" (Some timeout) ;;
         pbar_update 1) ;;
      logger_success "部署完成！" ;;
      logger_info "通过 Ingress 访问：" ;;
      logger_info "Prometheus: http://k8s.local/prometheus" ;;
      logger_info "Grafana:    http://k8s.local/grafana"
    else
      logger_info "干跑完成，未实际创建资源。"
  else
    logger_error ("未知栈 '" +++ stack +++ "'，可用: monitoring") ;;
    raise (Exit 2).

(** What [delete_stack] does once [ensure_kubectl] has returned. *)
Definition delete_after_preflight (stack : string) : M unit :=
  result <- run_cmd w (get_namespace_cmd stack) None false ;;
  if negb (Z.eqb (returncode result) 0) then
    logger_warning ("命名空间 '" +++ stack +++ "' 不存在，跳过删除。") ;;
    raise (Exit 0)
  else if String.eqb stack "monitoring" then
    logger_info "开始删除 Prometheus 与 Grafana 监控栈..." ;;
    run_cmd w delete_namespace_cmd None true ;; ret tt
  else
    logger_error ("未知栈 '" +++ stack +++ "'，可用: monitoring") ;;
    raise (Exit 2).

Definition verbosity (verbose : bool) : Level := if verbose then DEBUG else INFO.

(** A command of the CLI: configure the log handler, preflight, then [k]. *)
Definition invocation (lvl : Level) (k : M unit) : M unit :=
  logger_remove ;; logger_add lvl ;; ensure_kubectl w ;; k.

(** The trace of a preflight that passed, and the state it leaves. *)
Definition preflight_events (lvl : Level) : list Event :=
  log_events [lvl] DEBUG (debug_line version_cmd None) None
    ++ [Run version_cmd None (respond w [] version_cmd)]
    ++ log_events [lvl] DEBUG (debug_line context_cmd None) None
    ++ [Run context_cmd None (respond w [version_cmd] context_cmd)].

Definition after_preflight (lvl : Level) : State :=
  extend (mkState [] [lvl]) (preflight_events lvl).

(** What [deploy] does for the monitoring stack once every manifest is in. *)
Definition deploy_finish (dry_run : bool) (timeout : string) : M unit :=
  if negb dry_run then
    with_tqdm 2 "等待Pod就绪"
      (tqdm_write "等待 Prometheus Pod 就绪..." ;;
       kubectl_wait w "app=prometheus" "monitoring" (Some timeout) ;;
       pbar_update 1 ;;
       tqdm_write "等待 Grafana Pod 就绪..." ;;
       kubectl_wait w "app=grafana" "monitoring" (Some timeout) ;;
       pbar_update 1) ;;
    logger_success "部署完成！" ;;
    logger_info "通过 Ingress 访问：" ;;
    logger_info "Prometheus: http://k8s.local/prometheus" ;;
    logger_info "Grafana:    http://k8s.local/grafana"
  else
    logger_info "干跑完成，未实际创建资源。".

Definition absent_warning (stack : string) : string :=
  "命名空间 '" +++ stack +++ "' 不存在，跳过删除。".

Definition unknown_error (stack : string) : string :=
  "未知栈 '" +++ stack +++ "'，可用: monitoring".

(** The existence query as [delete_stack] traces it. *)
Definition probe_events (handlers : list Level) (stack : string) : list Event :=
  log_events handlers DEBUG (debug_line (get_namespace_cmd stack) None) None
    ++ [Run (get_namespace_cmd stack) None (respond w preflight (get_namespace_cmd stack))].

(** The preflight discipline of an invocation: nothing but the two queries
    is sent unless both went through, and then they come first; a failed
    preflight ends the invocation with the exception it raised. *)
Definition preflight_first (m : M unit) : Prop :=
  (forall c, In c (commands m) ->
     c = version_cmd \/ c = context_cmd
     \/ (preflight_ok w = true
         /\ exists rest, commands m = version_cmd :: context_cmd :: rest /\ In c rest))
  /\ (preflight_ok w = false ->
      (exists e, outcome m = Raise e /\ forall code, e <> Exit code)
      /\ (commands m = [version_cmd] \/ commands m = [version_cmd; context_cmd])).

End Vocabulary.

(** [runs m s r evs]: started in [s], [m] ends with [r] after the events
    [evs], the handlers left as they were. *)
Definition runs {A} (m : M A) (s : State) (r : Result A) (evs : list Event) : Prop :=
  m s = (r, extend s evs).

(** [tracked P m]: from two states with the same command history, [m] ends
    the same way and sends the same commands, all of them in [P]; it only
    ever adds to the trace.  Neither the handlers nor the text logged so far
    can change what reaches the backend. *)
Definition tracked {A} (P : Cmd -> Prop) (m : M A) : Prop :=
  forall s1 s2, history s1 = history s2 ->
    exists r evs1 evs2 k1 k2,
      m s1 = (r, mkState (events s1 ++ evs1) k1)
      /\ m s2 = (r, mkState (events s2 ++ evs2) k2)
      /\ cmds_of evs1 = cmds_of evs2
      /\ Forall P (cmds_of evs1).

(** The trace with loguru's DEBUG records left out. *)
Definition is_debug (e : Event) : bool :=
  match e with
  | Log DEBUG _ _ => true
  | _ => false
  end.

Definition without_debug (evs : list Event) : list Event :=
  filter (fun e => negb (is_debug e)) evs.

(** [verbosity_only m]: run with a DEBUG handler and with an INFO handler on
    traces that agree up to DEBUG records, [m] ends the same way and the
    traces still agree up to DEBUG records. *)
Definition verbosity_only {A} (m : M A) : Prop :=
  forall s1 s2,
    sinks s1 = [DEBUG] -> sinks s2 = [INFO] ->
    events s2 = without_debug (events s1) ->
    fst (m s1) = fst (m s2)
    /\ sinks (snd (m s1)) = [DEBUG]
    /\ sinks (snd (m s2)) = [INFO]
    /\ events (snd (m s2)) = without_debug (events (snd (m s1))).

Definition path_of (w : World) (name : string) : Path :=
  path_join (resource_dir_for w "monitoring") name.

(** The manifests the registry lists for a stack code. *)
Definition stack_paths (w : World) (code : string) : list Path :=
  match dict_get SUPPORT_STACKS code with
  | Some st => map (path_join (resource_dir_for w code)) (files st)
  | None => []
  end.

(** ** The rest of main.py: completion *)

(** [str.lower] on ASCII text: the letters A to Z move to a to z, every
    other character stays.  Python also folds non-ASCII letters; the
    properties of [complete_stack] are stated for ASCII fragments. *)
Definition lower_char (c : ascii) : ascii :=
  let n := nat_of_ascii c in
  if Nat.leb 65 n && Nat.leb n 90 then ascii_of_nat (n + 32) else c.

Fixpoint lower (s : string) : string :=
  match s with
  | EmptyString => EmptyString
  | String c rest => String (lower_char c) (lower rest)
  end.

Fixpoint is_ascii (s : string) : bool :=
  match s with
  | EmptyString => true
  | String c rest => Nat.ltb (nat_of_ascii c) 128 && is_ascii rest
  end.

(** [s.startswith(p)]. *)
Definition startswith (s p : string) : bool := prefix p s.

(** [complete_stack]: the registered codes that start with the typed
    fragment, lower-cased, in the registry's order. *)
Definition complete_stack (incomplete : string) : list string :=
  let stacks := stack_keys in
  filter (fun s => startswith s (lower incomplete)) stacks.

(** ** Vocabulary of the further properties *)

(** [appends Q m]: from any state [m] only adds events, leaves the handlers
    alone, and what it adds is in [Q]. *)
Definition appends (Q : list Event -> Prop) {A} (m : M A) : Prop :=
  forall s, exists r evs, runs m s r evs /\ Q evs.

(** [guarded Q m]: as [appends], with [Q] owed only when [m] raises. *)
Definition guarded (Q : list Event -> Prop) {A} (m : M A) : Prop :=
  forall s, exists r evs,
    runs m s r evs /\ (forall e, r = Raise e -> Q evs).

(** [returns m]: [m] never raises. *)
Definition returns {A} (m : M A) : Prop :=
  forall s, exists a evs, runs m s (Ok a) evs.

(** Units of progress shown: the sum of the [pbar.update(n)] calls. *)
Fixpoint progress_of (evs : list Event) : nat :=
  match evs with
  | [] => 0
  | BarUpdate n :: rest => n + progress_of rest
  | _ :: rest => progress_of rest
  end.

(** How many manifests at the head of [fps] go in, starting after the
    commands [h]. *)
Fixpoint applied_count (w : World) (h : list Cmd) (fps : list Path) (dry_run : bool) : nat :=
  match fps with
  | [] => 0
  | fp :: rest =>
      if apply_ok w h fp dry_run
      then S (applied_count w (h ++ [apply_cmd fp dry_run]) rest dry_run)
      else 0
  end.

(** Progress bars opened and not yet closed. *)
Fixpoint open_bars (evs : list Event) (depth : nat) : option nat :=
  match evs with
  | [] => Some depth
  | BarOpen _ _ :: rest => open_bars rest (S depth)
  | BarClose :: rest =>
      match depth with
      | O => None
      | S d => open_bars rest d
      end
  | _ :: rest => open_bars rest depth
  end.

(** Every bar that was opened has been closed, and none was closed before
    it was opened. *)
Definition bars_balanced (evs : list Event) : Prop :=
  forall depth, open_bars evs depth = Some depth.

Definition is_success_log (e : Event) : bool :=
  match e with
  | Log SUCCESS _ _ => true
  | _ => false
  end.

(** No record at level SUCCESS. *)
Definition no_success (evs : list Event) : Prop :=
  Forall (fun e => is_success_log e = false) evs.

(** The shapes of command [deploy] can send. *)
Definition deploy_command (c : Cmd) : Prop :=
  c = version_cmd \/ c = context_cmd
  \/ (exists fp dry, c = apply_cmd fp dry)
  \/ (exists label timeout, c = wait_cmd label "monitoring" timeout).

(** The commands [delete_stack] can send for [stack]. *)
Definition delete_command (stack : string) (c : Cmd) : Prop :=
  c = version_cmd \/ c = context_cmd
  \/ c = get_namespace_cmd stack \/ c = delete_namespace_cmd.

(** The exception [subprocess.run(..., check=True)] raises for a child that
    did not succeed. *)
Definition check_failure (res : ProcResult) (cmd : Cmd) : Exc :=
  match res with
  | Completed rc _ => CalledProcessError rc cmd
  | NotSpawned errno strerror => OSError errno strerror (hd EmptyString cmd)
  end.

(** The two error lines of [ensure_kubectl]. *)
Definition kubectl_missing_error : string := "未检测到 kubectl，请安装并确保其在 PATH 中。".
Definition context_missing_error : string := "未配置当前 Kubernetes 上下文，请先配置 kubectl。".

(** The lines [list_stacks] prints for a registry. *)
Definition stack_line (item : string * K8sStack) : string :=
  "- " +++ fst item +++ ": " +++ stack_description (snd item).

(** ** Sample worlds *)

(** No manifest exists anywhere. *)
Definition world_empty_disk : World :=
  mkWorld (fun _ _ => Completed 0 EmptyString) (fun _ _ => false) "/opt/cli" (fun _ => None).

(** The existence query dies on a connection error instead. *)
Definition world_unreachable : World :=
  mkWorld (fun h _ => if Nat.eqb (length h) 2 then Completed 255 "connection refused"
                      else Completed 0 EmptyString)
          (fun _ _ => true) "/opt/cli" (fun _ => None).

(** Everything is in place and the backend accepts every command. *)
Definition world_ok : World :=
  mkWorld (fun _ _ => Completed 0 EmptyString) (fun _ _ => true) "/opt/cli" (fun _ => None).

(** The backend turns down the second manifest; everything else goes through. *)
Definition world_rejecting : World :=
  mkWorld (fun h _ => if Nat.eqb (length h) 3 then Completed 1 "forbidden"
                      else Completed 0 EmptyString)
          (fun _ _ => true) "/opt/cli" (fun _ => None).

(** No namespace answers the existence query (third command). *)
Definition world_no_namespace : World :=
  mkWorld (fun h _ => if Nat.eqb (length h) 2 then Completed 1 "NotFound"
                      else Completed 0 EmptyString)
          (fun _ _ => true) "/opt/cli" (fun _ => None).

(** kubectl is not installed: the first command cannot be started. *)
Definition world_no_kubectl : World :=
  mkWorld (fun _ _ => NotSpawned 2 "No such file or directory")
          (fun _ _ => true) "/opt/cli" (fun _ => None).

(** kubectl is installed but no context is configured (second command). *)
Definition world_no_context : World :=
  mkWorld (fun h _ => if Nat.eqb (length h) 1 then Completed 1 "current-context is not set"
                      else Completed 0 EmptyString)
          (fun _ _ => true) "/opt/cli" (fun _ => None).

(** The namespace is there but its deletion (fourth command) is refused. *)
Definition world_delete_refused : World :=
  mkWorld (fun h _ => if Nat.eqb (length h) 3 then Completed 1 "forbidden"
                      else Completed 0 EmptyString)
          (fun _ _ => true) "/opt/cli" (fun _ => None).

(** The first readiness wait (eleventh command) times out. *)
Definition world_wait_timeout : World :=
  mkWorld (fun h _ => if Nat.eqb (length h) 10 then Completed 1 "timed out"
                      else Completed 0 EmptyString)
          (fun _ _ => true) "/opt/cli" (fun _ => None).

(** ** Traces *)

Lemma cmds_of_app (a b : list Event) : cmds_of (a ++ b) = cmds_of a ++ cmds_of b.
Proof.
  induction a as [|e a IH]; simpl; [reflexivity|].
  destruct e; simpl; rewrite IH; reflexivity.
Qed.

Lemma cmds_of_log_events k lvl msg exc : cmds_of (log_events k lvl msg exc) = [].
Proof.
  unfold log_events.
  induction (filter (fun k0 => Z.leb (level_no k0) (level_no lvl)) k); simpl; auto.
Qed.

Lemma history_extend s evs : history (extend s evs) = history s ++ cmds_of evs.
Proof. unfold history, extend; simpl. apply cmds_of_app. Qed.

Lemma extend_extend s a b : extend (extend s a) b = extend s (a ++ b).
Proof. unfold extend; simpl. rewrite app_assoc. reflexivity. Qed.

Lemma extend_nil s : extend s [] = s.
Proof. destruct s; unfold extend; simpl. rewrite app_nil_r. reflexivity. Qed.

Lemma sinks_extend s evs : sinks (extend s evs) = sinks s.
Proof. reflexivity. Qed.

Lemma events_extend s evs : events (extend s evs) = events s ++ evs.
Proof. reflexivity. Qed.

Create Rewrite HintDb trace.
#[local] Hint Rewrite cmds_of_app cmds_of_log_events history_extend extend_extend
  sinks_extend events_extend app_nil_r : trace.

(** Pushes [cmds_of] through a trace built from appends and single events. *)
Ltac cmds_norm :=
  repeat first [ rewrite cmds_of_app
               | rewrite cmds_of_log_events
               | progress (cbn [cmds_of app]) ].

(** ** Forward execution *)

Section Runs.

Variable w : World.

Lemma runs_ret {A} (a : A) s : runs (ret a) s (Ok a) [].
Proof. unfold runs, ret. rewrite extend_nil. reflexivity. Qed.

Lemma runs_raise {A} e s : runs (@raise A e) s (Raise e) [].
Proof. unfold runs, raise. rewrite extend_nil. reflexivity. Qed.

Lemma runs_emit e s : runs (emit e) s (Ok tt) [e].
Proof. reflexivity. Qed.

Lemma runs_log lvl msg exc s :
  runs (logger_log lvl msg exc) s (Ok tt) (log_events (sinks s) lvl msg exc).
Proof. reflexivity. Qed.

Lemma runs_log_raise {A} lvl msg exc e s evs :
  runs (bind (logger_log lvl msg exc) (fun _ => @raise A e)) (extend s evs) (Raise e)
       (log_events (sinks s) lvl msg exc).
Proof. reflexivity. Qed.

Lemma runs_bind_ok {A B} (m : M A) (k : A -> M B) s a e1 r e2 :
  runs m s (Ok a) e1 -> runs (k a) (extend s e1) r e2 ->
  runs (bind m k) s r (e1 ++ e2).
Proof.
  unfold runs, bind. intros -> ->. rewrite extend_extend. reflexivity.
Qed.

Lemma runs_bind_raise {A B} (m : M A) (k : A -> M B) s e e1 :
  runs m s (Raise e) e1 -> runs (bind m k) s (Raise e) e1.
Proof. unfold runs, bind. intros ->. reflexivity. Qed.

Lemma runs_then_ret {A B} (m : M A) (b : B) s a e1 :
  runs m s (Ok a) e1 -> runs (bind m (fun _ => ret b)) s (Ok b) e1.
Proof. unfold runs, bind, ret. intros ->. reflexivity. Qed.

Lemma runs_try_ok {A} (body : M A) handler s a e1 :
  runs body s (Ok a) e1 -> runs (try_except body handler) s (Ok a) e1.
Proof. unfold runs, try_except. intros ->. reflexivity. Qed.

Lemma runs_try_raise {A} (body : M A) handler s e e1 r e2 :
  runs body s (Raise e) e1 -> runs (handler e) (extend s e1) r e2 ->
  runs (try_except body handler) s r (e1 ++ e2).
Proof.
  unfold runs, try_except. intros -> ->. rewrite extend_extend. reflexivity.
Qed.

Lemma runs_with_tqdm {A} (body : M A) total desc s r evs :
  runs body (extend s [BarOpen total desc]) r evs ->
  runs (with_tqdm total desc body) s r (BarOpen total desc :: evs ++ [BarClose]).
Proof.
  unfold runs, with_tqdm, emit. intros ->.
  rewrite !extend_extend. reflexivity.
Qed.

Lemma runs_run_cmd cmd cwd check s :
  runs (run_cmd w cmd cwd check) s
       (proc_outcome (respond w (history s) cmd) cmd check)
       (log_events (sinks s) DEBUG (debug_line cmd cwd) None
          ++ [Run cmd cwd (respond w (history s) cmd)]).
Proof.
  unfold runs, run_cmd, bind, logger_debug, logger_log, subprocess_run.
  rewrite history_extend, cmds_of_log_events, app_nil_r, extend_extend.
  unfold proc_outcome, debug_line.
  destruct (respond w (history s) cmd) as [rc err|errno msg]; [|reflexivity].
  destruct (check && negb (Z.eqb rc 0)); reflexivity.
Qed.

End Runs.

(** ** The apply loop *)

Section Loop.

Variable w : World.

Lemma runs_apply_yaml_missing fp dry s :
  path_exists w (history s) fp = false ->
  runs (apply_yaml w fp dry) s (Raise (FileNotFoundError fp))
       (log_events (sinks s) ERROR ("未找到清单文件: " +++ fp) None).
Proof.
  intros H. unfold runs, apply_yaml, bind, file_exists. rewrite H. simpl.
  unfold logger_error, logger_log, raise. reflexivity.
Qed.

Lemma runs_apply_yaml_present fp dry s :
  path_exists w (history s) fp = true ->
  runs (apply_yaml w fp dry) s
       (match proc_outcome (respond w (history s) (apply_cmd fp dry))
                           (apply_cmd fp dry) true with
        | Ok _ => Ok tt
        | Raise e => Raise e
        end)
       (log_events (sinks s) DEBUG (debug_line (apply_cmd fp dry) None) None
          ++ [Run (apply_cmd fp dry) None (respond w (history s) (apply_cmd fp dry))]).
Proof.
  intros H. unfold runs, apply_yaml, bind at 1, file_exists. rewrite H.
  change (negb true) with false. cbv iota.
  unfold bind. rewrite (runs_run_cmd w (apply_cmd fp dry) None true s).
  destruct (proc_outcome _ _ _); reflexivity.
Qed.

Lemma apply_one_ok fp dry s :
  apply_ok w (history s) fp dry = true ->
  exists evs, runs (apply_one w fp dry) s (Ok tt) evs
              /\ cmds_of evs = [apply_cmd fp dry].
Proof.
  unfold apply_ok. intros H. apply andb_prop in H. destruct H as [Hex Hok].
  pose proof (runs_apply_yaml_present fp dry (extend s [Write ("应用: " +++ basename fp)])) as R.
  rewrite history_extend in R. simpl cmds_of in R. rewrite app_nil_r in R.
  specialize (R Hex).
  unfold succeeded in Hok.
  destruct (respond w (history s) (apply_cmd fp dry)) as [rc err|]; [|discriminate].
  unfold proc_outcome in R. rewrite Hok in R. cbn [andb negb] in R.
  eexists. split.
  - unfold apply_one. apply runs_try_ok.
    eapply runs_bind_ok; [apply runs_emit|].
    eapply runs_bind_ok; [exact R|]. apply runs_emit.
  - autorewrite with trace. simpl. reflexivity.
Qed.

Lemma apply_one_fails fp dry s :
  apply_ok w (history s) fp dry = false ->
  exists evs,
    runs (apply_one w fp dry) s (Raise (Exit 1)) evs
    /\ cmds_of evs = (if path_exists w (history s) fp then [apply_cmd fp dry] else [])
    /\ In (Write (failure_line w fp (apply_failure w (history s) fp dry))) evs
    /\ incl (log_events (sinks s) ERROR ("应用清单失败: " +++ fp)
               (Some (apply_failure w (history s) fp dry))) evs.
Proof.
  unfold apply_ok, apply_failure. intros H.
  pose proof (runs_apply_yaml_present fp dry (extend s [Write ("应用: " +++ basename fp)])) as RP.
  pose proof (runs_apply_yaml_missing fp dry (extend s [Write ("应用: " +++ basename fp)])) as RM.
  rewrite history_extend in RP, RM. simpl cmds_of in RP, RM. rewrite app_nil_r in RP, RM.
  destruct (path_exists w (history s) fp) eqn:Hex.
  - specialize (RP eq_refl). clear RM. simpl in H.
    assert (exists e, proc_outcome (respond w (history s) (apply_cmd fp dry))
                        (apply_cmd fp dry) true = Raise e
                      /\ e = match respond w (history s) (apply_cmd fp dry) with
                             | Completed rc _ => CalledProcessError rc (apply_cmd fp dry)
                             | NotSpawned errno strerror => OSError errno strerror "kubectl"
                             end) as [e [He Hee]].
    { unfold proc_outcome, succeeded in *.
      destruct (respond w (history s) (apply_cmd fp dry)) as [rc err|errno msg].
      - rewrite H. simpl. eauto.
      - destruct dry; simpl; eauto. }
    rewrite He in RP. rewrite <- Hee.
    eexists. split; [|split; [|split]].
    + unfold apply_one. eapply runs_try_raise.
      * eapply runs_bind_ok; [apply runs_emit|].
        eapply runs_bind_raise. exact RP.
      * eapply runs_bind_ok; [apply runs_emit|].
        eapply runs_bind_ok; [apply runs_log|]. apply runs_raise.
    + autorewrite with trace. simpl. autorewrite with trace. reflexivity.
    + unfold failure_line. rewrite !in_app_iff. simpl. tauto.
    + autorewrite with trace. intros x Hx. rewrite !in_app_iff. tauto.
  - specialize (RM eq_refl). clear RP.
    eexists. split; [|split; [|split]].
    + unfold apply_one. eapply runs_try_raise.
      * eapply runs_bind_ok; [apply runs_emit|].
        eapply runs_bind_raise. exact RM.
      * eapply runs_bind_ok; [apply runs_emit|].
        eapply runs_bind_ok; [apply runs_log|]. apply runs_raise.
    + autorewrite with trace. simpl. autorewrite with trace. reflexivity.
    + unfold failure_line. rewrite !in_app_iff. simpl. tauto.
    + autorewrite with trace. intros x Hx. rewrite !in_app_iff. tauto.
Qed.

Lemma apply_files_all_ok fps dry : forall s,
  applies_ok w (history s) fps dry = true ->
  exists evs, runs (apply_files w fps dry) s (Ok tt) evs
              /\ cmds_of evs = map (fun fp => apply_cmd fp dry) fps.
Proof.
  induction fps as [|fp rest IH]; intros s H.
  - exists []. split; [apply runs_ret | reflexivity].
  - simpl in H. apply andb_prop in H. destruct H as [H1 H2].
    destruct (apply_one_ok fp dry s H1) as [e1 [R1 C1]].
    destruct (IH (extend s e1)) as [e2 [R2 C2]].
    { rewrite history_extend, C1. exact H2. }
    exists (e1 ++ e2). split.
    + simpl. eapply runs_bind_ok; eassumption.
    + rewrite cmds_of_app, C1, C2. reflexivity.
Qed.

Lemma apply_files_stops pre fp post dry : forall s,
  applies_ok w (history s) pre dry = true ->
  apply_ok w (history s ++ map (fun p => apply_cmd p dry) pre) fp dry = false ->
  let h := history s ++ map (fun p => apply_cmd p dry) pre in
  exists evs,
    runs (apply_files w (pre ++ fp :: post) dry) s (Raise (Exit 1)) evs
    /\ cmds_of evs = map (fun p => apply_cmd p dry) pre
                     ++ (if path_exists w h fp then [apply_cmd fp dry] else [])
    /\ In (Write (failure_line w fp (apply_failure w h fp dry))) evs
    /\ incl (log_events (sinks s) ERROR ("应用清单失败: " +++ fp)
               (Some (apply_failure w h fp dry))) evs.
Proof.
  induction pre as [|p pre IH]; intros s Hpre Hfp h.
  - subst h. simpl in *. rewrite app_nil_r in *.
    destruct (apply_one_fails fp dry s Hfp) as [e [R [C [Wr L]]]].
    exists e. repeat split; try assumption.
    eapply runs_bind_raise. exact R.
  - simpl in Hpre. apply andb_prop in Hpre. destruct Hpre as [H1 H2].
    destruct (apply_one_ok p dry s H1) as [e1 [R1 C1]].
    assert (history (extend s e1) ++ map (fun q => apply_cmd q dry) pre = h) as Hh.
    { subst h. rewrite history_extend, C1, <- app_assoc. reflexivity. }
    destruct (IH (extend s e1)) as [e2 [R2 [C2 [W2 L2]]]].
    { rewrite history_extend, C1. exact H2. }
    { rewrite Hh. exact Hfp. }
    rewrite Hh in C2, W2, L2.
    exists (e1 ++ e2). split; [|split; [|split]].
    + simpl. eapply runs_bind_ok; eassumption.
    + rewrite cmds_of_app, C1, C2. reflexivity.
    + apply in_or_app. right. exact W2.
    + intros x Hx. apply in_or_app. right. apply L2. exact Hx.
Qed.

End Loop.

(** ** Commands depend on the world only through the commands before them *)

Section Tracked.

Variable w : World.
Variable P : Cmd -> Prop.

Lemma state_eta s : mkState (events s ++ []) (sinks s) = s.
Proof. destruct s; simpl. rewrite app_nil_r. reflexivity. Qed.

Lemma tracked_ret {A} (a : A) : tracked P (ret a).
Proof.
  intros s1 s2 _. exists (Ok a), [], [], (sinks s1), (sinks s2).
  rewrite !state_eta. repeat split; constructor.
Qed.

Lemma tracked_raise {A} e : tracked P (@raise A e).
Proof.
  intros s1 s2 _. exists (Raise e), [], [], (sinks s1), (sinks s2).
  rewrite !state_eta. repeat split; constructor.
Qed.

Lemma tracked_quiet (m : M unit) :
  (forall s, exists evs k, m s = (Ok tt, mkState (events s ++ evs) k) /\ cmds_of evs = []) ->
  tracked P m.
Proof.
  intros H s1 s2 _.
  destruct (H s1) as (e1 & k1 & E1 & C1). destruct (H s2) as (e2 & k2 & E2 & C2).
  exists (Ok tt), e1, e2, k1, k2. rewrite C1, C2. repeat split; auto.
Qed.

Lemma tracked_emit e : cmds_of [e] = [] -> tracked P (emit e).
Proof. intros H. apply tracked_quiet. intros s. exists [e], (sinks s). auto. Qed.

Lemma tracked_log lvl msg exc : tracked P (logger_log lvl msg exc).
Proof.
  apply tracked_quiet. intros s. eexists _, (sinks s). split; [reflexivity|].
  apply cmds_of_log_events.
Qed.

Lemma tracked_logger_remove : tracked P logger_remove.
Proof.
  apply tracked_quiet. intros s. exists [], []. unfold logger_remove.
  rewrite app_nil_r. auto.
Qed.

Lemma tracked_logger_add lvl : tracked P (logger_add lvl).
Proof.
  apply tracked_quiet. intros s. exists [], (sinks s ++ [lvl]). unfold logger_add.
  rewrite app_nil_r. auto.
Qed.

Lemma tracked_bind {A B} (m : M A) (k : A -> M B) :
  tracked P m -> (forall a, tracked P (k a)) -> tracked P (bind m k).
Proof.
  intros Hm Hk s1 s2 H.
  destruct (Hm s1 s2 H) as (r & e1 & e2 & k1 & k2 & E1 & E2 & C & F).
  unfold bind. rewrite E1, E2. destruct r as [a|e].
  - destruct (Hk a (mkState (events s1 ++ e1) k1) (mkState (events s2 ++ e2) k2))
      as (r' & e1' & e2' & k1' & k2' & E1' & E2' & C' & F').
    { unfold history in *. simpl. rewrite !cmds_of_app. congruence. }
    simpl in E1', E2'. rewrite <- app_assoc in E1', E2'.
    exists r', (e1 ++ e1'), (e2 ++ e2'), k1', k2'.
    rewrite !cmds_of_app. repeat split; auto.
    + congruence.
    + apply Forall_app; auto.
  - exists (Raise e), e1, e2, k1, k2. auto.
Qed.

Lemma tracked_try {A} (body : M A) handler :
  tracked P body -> (forall e, tracked P (handler e)) -> tracked P (try_except body handler).
Proof.
  intros Hm Hk s1 s2 H.
  destruct (Hm s1 s2 H) as (r & e1 & e2 & k1 & k2 & E1 & E2 & C & F).
  unfold try_except. rewrite E1, E2. destruct r as [a|e].
  - exists (Ok a), e1, e2, k1, k2. auto.
  - destruct (Hk e (mkState (events s1 ++ e1) k1) (mkState (events s2 ++ e2) k2))
      as (r' & e1' & e2' & k1' & k2' & E1' & E2' & C' & F').
    { unfold history in *. simpl. rewrite !cmds_of_app. congruence. }
    simpl in E1', E2'. rewrite <- app_assoc in E1', E2'.
    exists r', (e1 ++ e1'), (e2 ++ e2'), k1', k2'.
    rewrite !cmds_of_app. repeat split; auto.
    + congruence.
    + apply Forall_app; auto.
Qed.

Lemma tracked_with_tqdm {A} (body : M A) total desc :
  tracked P body -> tracked P (with_tqdm total desc body).
Proof.
  intros Hm s1 s2 H.
  destruct (Hm (extend s1 [BarOpen total desc]) (extend s2 [BarOpen total desc]))
    as (r & e1 & e2 & k1 & k2 & E1 & E2 & C & F).
  { rewrite !history_extend. simpl. congruence. }
  unfold with_tqdm, emit. rewrite E1, E2.
  exists r, (BarOpen total desc :: e1 ++ [BarClose]),
           (BarOpen total desc :: e2 ++ [BarClose]), k1, k2.
  unfold extend. simpl. rewrite <- !app_assoc. simpl.
  rewrite !cmds_of_app. simpl. rewrite !app_nil_r. auto.
Qed.

Lemma tracked_subprocess_run cmd cwd check :
  P cmd -> tracked P (subprocess_run w cmd cwd check).
Proof.
  intros HP s1 s2 H. unfold subprocess_run. rewrite <- H.
  set (res := respond w (history s1) cmd).
  exists (proc_outcome res cmd check), [Run cmd cwd res], [Run cmd cwd res],
         (sinks s1), (sinks s2).
  unfold proc_outcome, extend. simpl.
  repeat split; auto; destruct res as [rc err|]; auto;
    destruct (check && negb (Z.eqb rc 0)); reflexivity.
Qed.

Lemma tracked_file_exists p : tracked P (file_exists w p).
Proof.
  intros s1 s2 H. unfold file_exists. rewrite <- H.
  exists (Ok (path_exists w (history s1) p)), [], [], (sinks s1), (sinks s2).
  rewrite !state_eta. repeat split; constructor.
Qed.

Lemma tracked_run_cmd cmd cwd check : P cmd -> tracked P (run_cmd w cmd cwd check).
Proof.
  intros HP. unfold run_cmd. apply tracked_bind; [apply tracked_log|].
  intros _. apply tracked_subprocess_run. exact HP.
Qed.

Lemma tracked_ensure_kubectl :
  P version_cmd -> P context_cmd -> tracked P (ensure_kubectl w).
Proof.
  intros Hv Hc. unfold ensure_kubectl.
  apply tracked_bind; [|intros _];
    (apply tracked_try;
     [ apply tracked_bind; [apply tracked_run_cmd; assumption | intros; apply tracked_ret]
     | intros e; apply tracked_bind; [apply tracked_log | intros; apply tracked_raise] ]).
Qed.

Lemma tracked_apply_yaml fp dry :
  P (apply_cmd fp dry) -> tracked P (apply_yaml w fp dry).
Proof.
  intros HP. unfold apply_yaml. apply tracked_bind; [apply tracked_file_exists|].
  intros [|]; cbn [negb].
  - apply tracked_bind; [apply tracked_run_cmd; assumption | intros; apply tracked_ret].
  - apply tracked_bind; [apply tracked_log | intros; apply tracked_raise].
Qed.

Lemma tracked_apply_one fp dry :
  P (apply_cmd fp dry) -> tracked P (apply_one w fp dry).
Proof.
  intros HP. unfold apply_one. apply tracked_try.
  - apply tracked_bind; [apply tracked_emit; reflexivity | intros _].
    apply tracked_bind; [apply tracked_apply_yaml; assumption | intros _].
    apply tracked_emit; reflexivity.
  - intros e. apply tracked_bind; [apply tracked_emit; reflexivity | intros _].
    apply tracked_bind; [apply tracked_log | intros; apply tracked_raise].
Qed.

Lemma tracked_apply_files fps dry :
  (forall fp, In fp fps -> P (apply_cmd fp dry)) -> tracked P (apply_files w fps dry).
Proof.
  induction fps as [|fp rest IH]; intros H; simpl.
  - apply tracked_ret.
  - apply tracked_bind.
    + apply tracked_apply_one. apply H. left. reflexivity.
    + intros _. apply IH. intros q Hq. apply H. right. exact Hq.
Qed.

Lemma tracked_kubectl_wait label namespace timeout :
  (forall t, P (wait_cmd label namespace t)) ->
  tracked P (kubectl_wait w label namespace timeout).
Proof.
  intros HP. unfold kubectl_wait.
  apply tracked_bind; [apply tracked_run_cmd; apply HP | intros; apply tracked_ret].
Qed.

End Tracked.

(** ** The handler level only decides which records are written *)

Section Verbosity.

Variable w : World.

Lemma without_debug_app a b : without_debug (a ++ b) = without_debug a ++ without_debug b.
Proof. unfold without_debug. apply filter_app. Qed.

Lemma cmds_of_without_debug evs : cmds_of (without_debug evs) = cmds_of evs.
Proof.
  induction evs as [|e evs IH]; [reflexivity|].
  unfold without_debug in *.
  destruct e as [c d r|l m x|m|t d|n| |m]; simpl;
    first [ exact IH | f_equal; exact IH | destruct l; simpl; exact IH ].
Qed.

Lemma verbosity_only_ret {A} (a : A) : verbosity_only (ret a).
Proof. intros s1 s2 H1 H2 H. simpl. auto. Qed.

Lemma verbosity_only_raise {A} e : verbosity_only (@raise A e).
Proof. intros s1 s2 H1 H2 H. simpl. auto. Qed.

Lemma verbosity_only_bind {A B} (m : M A) (k : A -> M B) :
  verbosity_only m -> (forall a, verbosity_only (k a)) -> verbosity_only (bind m k).
Proof.
  intros Hm Hk s1 s2 H1 H2 H. unfold bind.
  destruct (Hm s1 s2 H1 H2 H) as (Er & E1 & E2 & Ee).
  destruct (m s1) as [r1 t1], (m s2) as [r2 t2]. simpl in *. subst r2.
  destruct r1 as [a|e]; [apply Hk; assumption | simpl; auto].
Qed.

Lemma verbosity_only_try {A} (body : M A) handler :
  verbosity_only body -> (forall e, verbosity_only (handler e)) ->
  verbosity_only (try_except body handler).
Proof.
  intros Hm Hk s1 s2 H1 H2 H. unfold try_except.
  destruct (Hm s1 s2 H1 H2 H) as (Er & E1 & E2 & Ee).
  destruct (body s1) as [r1 t1], (body s2) as [r2 t2]. simpl in *. subst r2.
  destruct r1 as [a|e]; [simpl; auto | apply Hk; assumption].
Qed.

Lemma verbosity_only_emit e : is_debug e = false -> verbosity_only (emit e).
Proof.
  intros He s1 s2 H1 H2 H. unfold emit. simpl.
  rewrite H, without_debug_app. unfold without_debug at 3. simpl. rewrite He. auto.
Qed.

Lemma verbosity_only_log lvl msg exc : verbosity_only (logger_log lvl msg exc).
Proof.
  intros s1 s2 H1 H2 H. unfold logger_log. simpl.
  rewrite H, H1, H2, without_debug_app. repeat apply conj; auto.
  f_equal. destruct lvl; reflexivity.
Qed.

Lemma verbosity_only_with_tqdm {A} (body : M A) total desc :
  verbosity_only body -> verbosity_only (with_tqdm total desc body).
Proof.
  intros Hm s1 s2 H1 H2 H. unfold with_tqdm, emit.
  destruct (Hm (extend s1 [BarOpen total desc]) (extend s2 [BarOpen total desc]))
    as (Er & E1 & E2 & Ee); auto.
  { simpl. rewrite H, without_debug_app. reflexivity. }
  destruct (body (extend s1 _)) as [r1 t1], (body (extend s2 _)) as [r2 t2].
  simpl in *. rewrite Ee, without_debug_app. auto.
Qed.

Lemma verbosity_only_subprocess_run cmd cwd check :
  verbosity_only (subprocess_run w cmd cwd check).
Proof.
  intros s1 s2 H1 H2 H. unfold subprocess_run.
  assert (history s2 = history s1) as Hh
    by (unfold history; rewrite H; apply cmds_of_without_debug).
  rewrite Hh. destruct (respond w (history s1) cmd) as [rc err|errno msg]; simpl.
  - destruct (check && negb (Z.eqb rc 0)); simpl;
      rewrite H, without_debug_app; auto.
  - rewrite H, without_debug_app. auto.
Qed.

Lemma verbosity_only_file_exists p : verbosity_only (file_exists w p).
Proof.
  intros s1 s2 H1 H2 H. unfold file_exists. simpl.
  assert (history s2 = history s1) as Hh
    by (unfold history; rewrite H; apply cmds_of_without_debug).
  rewrite Hh. auto.
Qed.

Lemma verbosity_only_run_cmd cmd cwd check : verbosity_only (run_cmd w cmd cwd check).
Proof.
  unfold run_cmd. apply verbosity_only_bind; [apply verbosity_only_log | intros _].
  apply verbosity_only_subprocess_run.
Qed.

(** Takes a program of the model apart down to its primitives. *)
Ltac verbosity_steps :=
  repeat first
    [ apply verbosity_only_ret
    | apply verbosity_only_raise
    | apply verbosity_only_log
    | apply verbosity_only_run_cmd
    | apply verbosity_only_file_exists
    | apply verbosity_only_emit; reflexivity
    | apply verbosity_only_with_tqdm
    | apply verbosity_only_try
    | apply verbosity_only_bind
    | intro ].

Lemma verbosity_only_ensure_kubectl : verbosity_only (ensure_kubectl w).
Proof. unfold ensure_kubectl. verbosity_steps. Qed.

Lemma verbosity_only_apply_files fps dry : verbosity_only (apply_files w fps dry).
Proof.
  induction fps as [|fp rest IH]; simpl.
  - apply verbosity_only_ret.
  - apply verbosity_only_bind; [|intros _; exact IH].
    unfold apply_one, apply_yaml, tqdm_write, pbar_update, logger_exception, logger_error.
    apply verbosity_only_try; [|verbosity_steps].
    apply verbosity_only_bind; [verbosity_steps | intros _].
    apply verbosity_only_bind; [|verbosity_steps].
    apply verbosity_only_bind; [verbosity_steps | intros [|]; cbn [negb]; verbosity_steps].
Qed.

Lemma verbosity_only_deploy_after stack dry timeout :
  verbosity_only (deploy_after_preflight w stack dry timeout).
Proof.
  unfold deploy_after_preflight.
  destruct (String.eqb stack "monitoring"); [|unfold logger_error; verbosity_steps].
  apply verbosity_only_bind; [apply verbosity_only_log | intros _].
  change (stacks_getitem "monitoring")
    with (@ret K8sStack (mkK8sStack "monitoring" "Prometheus 与 Grafana 监控栈"
                           monitoring_names)).
  apply verbosity_only_bind; [apply verbosity_only_ret | intros st].
  apply verbosity_only_bind.
  { apply verbosity_only_with_tqdm, verbosity_only_apply_files. }
  intros _. destruct dry; cbn [negb];
    unfold kubectl_wait, tqdm_write, pbar_update, logger_success, logger_info;
    verbosity_steps.
Qed.

Lemma verbosity_only_delete_after stack : verbosity_only (delete_after_preflight w stack).
Proof.
  unfold delete_after_preflight.
  apply verbosity_only_bind; [apply verbosity_only_run_cmd | intros result].
  destruct (negb (Z.eqb (returncode result) 0)); [unfold logger_warning; verbosity_steps|].
  destruct (String.eqb stack "monitoring");
    unfold logger_info, logger_error; verbosity_steps.
Qed.

(** With [--verbose] the trace gains DEBUG records and nothing else. *)
Lemma invocation_verbosity k :
  verbosity_only k ->
  outcome (invocation w INFO k) = outcome (invocation w DEBUG k)
  /\ trace (invocation w INFO k) = without_debug (trace (invocation w DEBUG k)).
Proof.
  intros Hk.
  assert (verbosity_only (bind (ensure_kubectl w) (fun _ => k))) as T
    by (apply verbosity_only_bind; [apply verbosity_only_ensure_kubectl | intros _; exact Hk]).
  destruct (T (mkState [] [DEBUG]) (mkState [] [INFO]) eq_refl eq_refl eq_refl)
    as (Er & _ & _ & Ee).
  split; [symmetry; exact Er | exact Ee].
Qed.

End Verbosity.

(** ** The two commands, cut at the preflight *)

Section Invocation.

Variable w : World.

Lemma deploy_unfold stack dry timeout verbose :
  deploy w stack dry timeout verbose
  = invocation w (verbosity verbose) (deploy_after_preflight w stack dry timeout).
Proof. reflexivity. Qed.

Lemma delete_stack_unfold stack verbose :
  delete_stack w stack verbose
  = invocation w (verbosity verbose) (delete_after_preflight w stack).
Proof. reflexivity. Qed.

Lemma history_after_preflight lvl : history (after_preflight w lvl) = preflight.
Proof.
  unfold after_preflight, preflight_events. rewrite history_extend.
  rewrite !cmds_of_app, !cmds_of_log_events. reflexivity.
Qed.

Lemma cmds_of_preflight_events lvl : cmds_of (preflight_events w lvl) = preflight.
Proof.
  unfold preflight_events. rewrite !cmds_of_app, !cmds_of_log_events. reflexivity.
Qed.

Lemma ensure_kubectl_passes lvl :
  preflight_ok w = true ->
  runs (ensure_kubectl w) (mkState [] [lvl]) (Ok tt) (preflight_events w lvl).
Proof.
  unfold preflight_ok. intros H. apply andb_prop in H. destruct H as [H1 H2].
  pose proof (runs_run_cmd w version_cmd None true (mkState [] [lvl])) as R1.
  change (history (mkState [] [lvl])) with (@nil Cmd) in R1.
  set (s1 := extend (mkState [] [lvl])
               (log_events [lvl] DEBUG (debug_line version_cmd None) None
                  ++ [Run version_cmd None (respond w [] version_cmd)])).
  pose proof (runs_run_cmd w context_cmd None true s1) as R2.
  assert (history s1 = [version_cmd]) as Hs1.
  { subst s1. rewrite history_extend, cmds_of_app, cmds_of_log_events. reflexivity. }
  rewrite Hs1 in R2.
  unfold succeeded in H1, H2.
  destruct (respond w [] version_cmd) as [rc1 err1|] eqn:E1; [|discriminate].
  destruct (respond w [version_cmd] context_cmd) as [rc2 err2|] eqn:E2; [|discriminate].
  unfold proc_outcome in R1, R2. rewrite H1 in R1. rewrite H2 in R2.
  cbn [andb negb] in R1, R2.
  unfold ensure_kubectl, preflight_events. rewrite E1, E2.
  rewrite app_assoc.
  eapply runs_bind_ok.
  - apply runs_try_ok. eapply runs_then_ret. exact R1.
  - apply runs_try_ok. eapply runs_then_ret. exact R2.
Qed.

Lemma ensure_kubectl_fails lvl :
  preflight_ok w = false ->
  exists e evs,
    runs (ensure_kubectl w) (mkState [] [lvl]) (Raise e) evs
    /\ (forall code, e <> Exit code)
    /\ (cmds_of evs = [version_cmd] \/ cmds_of evs = preflight).
Proof.
  unfold preflight_ok. intros H.
  pose proof (runs_run_cmd w version_cmd None true (mkState [] [lvl])) as R1.
  change (history (mkState [] [lvl])) with (@nil Cmd) in R1.
  set (s1 := extend (mkState [] [lvl])
               (log_events [lvl] DEBUG (debug_line version_cmd None) None
                  ++ [Run version_cmd None (respond w [] version_cmd)])).
  pose proof (runs_run_cmd w context_cmd None true s1) as R2.
  assert (history s1 = [version_cmd]) as Hs1.
  { subst s1. rewrite history_extend, cmds_of_app, cmds_of_log_events. reflexivity. }
  rewrite Hs1 in R2.
  assert (forall res cmd, succeeded res = false ->
            exists e, proc_outcome res cmd true = Raise e /\ forall code, e <> Exit code) as Hbad.
  { intros [rc err|errno msg] cmd Hs; simpl in *.
    - rewrite Hs. simpl. eexists. split; [reflexivity | discriminate].
    - eexists. split; [reflexivity | discriminate]. }
  destruct (succeeded (respond w [] version_cmd)) eqn:S1.
  - simpl in H.
    destruct (Hbad _ context_cmd H) as [e [He Hne]]. rewrite He in R2.
    assert (proc_outcome (respond w [] version_cmd) version_cmd true
            = Ok (mkCompleted version_cmd 0)) as Hok.
    { unfold succeeded in S1. destruct (respond w [] version_cmd) as [rc err|]; [|discriminate].
      unfold proc_outcome. rewrite S1. apply Z.eqb_eq in S1. subst rc. reflexivity. }
    rewrite Hok in R1.
    exists e. eexists. split; [|split; [exact Hne|]].
    + unfold ensure_kubectl. eapply runs_bind_ok.
      * apply runs_try_ok. eapply runs_then_ret. exact R1.
      * eapply runs_try_raise.
        -- eapply runs_bind_raise. exact R2.
        -- eapply runs_bind_ok; [apply runs_log | apply runs_raise].
    + right. autorewrite with trace. reflexivity.
  - destruct (Hbad _ version_cmd S1) as [e [He Hne]]. rewrite He in R1.
    exists e. eexists. split; [|split; [exact Hne|]].
    + unfold ensure_kubectl. eapply runs_bind_raise.
      eapply runs_try_raise.
      * eapply runs_bind_raise. exact R1.
      * eapply runs_bind_ok; [apply runs_log | apply runs_raise].
    + left. autorewrite with trace. reflexivity.
Qed.

(** A passed preflight hands over to [k] in the state [after_preflight]. *)
Lemma invocation_passes lvl k r evs :
  preflight_ok w = true ->
  runs k (after_preflight w lvl) r evs ->
  outcome (invocation w lvl k) = r
  /\ trace (invocation w lvl k) = preflight_events w lvl ++ evs
  /\ commands (invocation w lvl k) = preflight ++ cmds_of evs.
Proof.
  intros Hp Hk.
  pose proof (ensure_kubectl_passes lvl Hp) as Re.
  pose proof (runs_bind_ok _ (fun _ => k) _ _ _ _ _ Re Hk) as R.
  unfold runs in R.
  assert (invocation w lvl k init_state
          = (r, extend (mkState [] [lvl]) (preflight_events w lvl ++ evs))) as E.
  { rewrite <- R. reflexivity. }
  unfold commands, outcome, trace. rewrite E. simpl.
  rewrite cmds_of_app, cmds_of_preflight_events. auto.
Qed.

(** A failed preflight ends the invocation on the spot. *)
Lemma invocation_fails lvl k :
  preflight_ok w = false ->
  exists e,
    outcome (invocation w lvl k) = Raise e
    /\ (forall code, e <> Exit code)
    /\ (commands (invocation w lvl k) = [version_cmd]
        \/ commands (invocation w lvl k) = preflight).
Proof.
  intros Hp. destruct (ensure_kubectl_fails lvl Hp) as (e & evs & Re & Hne & Hc).
  pose proof (runs_bind_raise _ (fun _ => k) _ _ _ Re) as R. unfold runs in R.
  assert (invocation w lvl k init_state = (Raise e, extend (mkState [] [lvl]) evs)) as E.
  { rewrite <- R. reflexivity. }
  exists e. unfold commands, outcome, trace. rewrite E. simpl. auto.
Qed.

End Invocation.

Section Determinacy.

Variable w : World.

Lemma invocation_passes_eq lvl k :
  preflight_ok w = true ->
  invocation w lvl k init_state = k (after_preflight w lvl).
Proof.
  intros Hp. pose proof (ensure_kubectl_passes w lvl Hp) as Re. unfold runs in Re.
  unfold invocation, bind, logger_remove, logger_add. simpl.
  rewrite Re. reflexivity.
Qed.

Lemma tracked_grows {A} P (m : M A) :
  tracked P m ->
  forall s, exists r evs k,
    m s = (r, mkState (events s ++ evs) k) /\ Forall P (cmds_of evs).
Proof.
  intros H s. destruct (H s s eq_refl) as (r & e1 & e2 & k1 & k2 & E1 & _ & _ & F).
  exists r, e1, k1. auto.
Qed.

Lemma tracked_invocation P lvl k :
  P version_cmd -> P context_cmd -> tracked P k -> tracked P (invocation w lvl k).
Proof.
  intros Hv Hc Hk. unfold invocation.
  apply tracked_bind; [apply tracked_logger_remove | intros _].
  apply tracked_bind; [apply tracked_logger_add | intros _].
  apply tracked_bind; [apply tracked_ensure_kubectl; assumption | intros _].
  exact Hk.
Qed.

Lemma stacks_getitem_monitoring :
  stacks_getitem "monitoring"
  = ret (mkK8sStack "monitoring" "Prometheus 与 Grafana 监控栈" monitoring_names).
Proof. reflexivity. Qed.

Lemma tracked_deploy_after P stack dry timeout :
  (forall fp, P (apply_cmd fp dry)) ->
  (dry = false -> forall label t, P (wait_cmd label "monitoring" t)) ->
  tracked P (deploy_after_preflight w stack dry timeout).
Proof.
  intros Ha Hw. unfold deploy_after_preflight.
  destruct (String.eqb stack "monitoring").
  - apply tracked_bind; [apply tracked_log | intros _].
    rewrite stacks_getitem_monitoring.
    apply tracked_bind; [apply tracked_ret | intros st].
    apply tracked_bind.
    { apply tracked_with_tqdm. apply tracked_apply_files. auto. }
    intros _. destruct dry; cbn [negb].
    + apply tracked_log.
    + specialize (Hw eq_refl).
      apply tracked_bind.
      { apply tracked_with_tqdm.
        apply tracked_bind; [apply tracked_emit; reflexivity | intros _].
        apply tracked_bind; [apply tracked_kubectl_wait; auto | intros _].
        apply tracked_bind; [apply tracked_emit; reflexivity | intros _].
        apply tracked_bind; [apply tracked_emit; reflexivity | intros _].
        apply tracked_bind; [apply tracked_kubectl_wait; auto | intros _].
        apply tracked_emit; reflexivity. }
      intros _.
      repeat (apply tracked_bind; [apply tracked_log | intros _]).
      apply tracked_log.
  - apply tracked_bind; [apply tracked_log | intros _]. apply tracked_raise.
Qed.

Lemma tracked_delete_after P stack :
  P (get_namespace_cmd stack) -> P delete_namespace_cmd ->
  tracked P (delete_after_preflight w stack).
Proof.
  intros Hg Hd. unfold delete_after_preflight.
  apply tracked_bind; [apply tracked_run_cmd; exact Hg | intros result].
  destruct (negb (Z.eqb (returncode result) 0)).
  - apply tracked_bind; [apply tracked_log | intros _]. apply tracked_raise.
  - destruct (String.eqb stack "monitoring").
    + apply tracked_bind; [apply tracked_log | intros _].
      apply tracked_bind; [apply tracked_run_cmd; exact Hd | intros _].
      apply tracked_ret.
    + apply tracked_bind; [apply tracked_log | intros _]. apply tracked_raise.
Qed.

Lemma invocation_preflight_first P lvl k :
  tracked P k -> preflight_first w (invocation w lvl k).
Proof.
  intros Hk. unfold preflight_first.
  destruct (preflight_ok w) eqn:Hp.
  - split; [|discriminate].
    destruct (tracked_grows P k Hk (after_preflight w lvl)) as (r & evs & k1 & E & _).
    pose proof (invocation_passes_eq lvl k Hp) as I0. rewrite E in I0.
    assert (commands (invocation w lvl k) = version_cmd :: context_cmd :: cmds_of evs) as C.
    { unfold commands, trace. rewrite I0. simpl.
      rewrite cmds_of_app, cmds_of_preflight_events. reflexivity. }
    intros c Hc. rewrite C in Hc. simpl in Hc.
    destruct Hc as [<-|[<-|Hc]]; auto.
    right. right. split; [reflexivity|]. exists (cmds_of evs). auto.
  - destruct (invocation_fails w lvl k Hp) as (e & Ho & Hne & Hc).
    split.
    + intros c Hin. destruct Hc as [Hc|Hc]; rewrite Hc in Hin; simpl in Hin;
        intuition auto.
    + intros _. split; [exists e; auto | exact Hc].
Qed.

End Determinacy.

(** ** The monitoring stack *)

Section Monitoring.

Variable w : World.

Lemma deploy_monitoring_unfold dry timeout :
  deploy_after_preflight w "monitoring" dry timeout
  = (logger_info "开始部署 Prometheus 与 Grafana 监控栈..." ;;
     with_tqdm (length (monitoring_paths w)) "应用清单"
               (apply_files w (monitoring_paths w) dry) ;;
     deploy_finish w dry timeout).
Proof. reflexivity. Qed.

Lemma deploy_unknown_unfold stack dry timeout :
  stack <> "monitoring" ->
  deploy_after_preflight w stack dry timeout
  = (logger_error ("未知栈 '" +++ stack +++ "'，可用: monitoring") ;; raise (Exit 2)).
Proof.
  intros H. unfold deploy_after_preflight.
  destruct (String.eqb_spec stack "monitoring") as [E|_]; [contradiction | reflexivity].
Qed.

(** Every manifest goes in: the rest of [deploy] takes over. *)
Lemma runs_monitoring_applied dry timeout s :
  history s = preflight ->
  applies_ok w preflight (monitoring_paths w) dry = true ->
  exists e1,
    cmds_of e1 = map (fun fp => apply_cmd fp dry) (monitoring_paths w)
    /\ forall r e2,
         runs (deploy_finish w dry timeout) (extend s e1) r e2 ->
         runs (deploy_after_preflight w "monitoring" dry timeout) s r (e1 ++ e2).
Proof.
  intros Hs Hok. rewrite deploy_monitoring_unfold.
  set (l0 := log_events (sinks s) INFO "开始部署 Prometheus 与 Grafana 监控栈..." None).
  set (bar := BarOpen (length (monitoring_paths w)) "应用清单").
  destruct (apply_files_all_ok w (monitoring_paths w) dry (extend (extend s l0) [bar]))
    as [ev [R C]].
  { rewrite !history_extend. subst l0. rewrite cmds_of_log_events. simpl.
    rewrite !app_nil_r, Hs. exact Hok. }
  exists (l0 ++ bar :: ev ++ [BarClose]). split.
  - subst l0. rewrite cmds_of_app, cmds_of_log_events. simpl.
    rewrite cmds_of_app. simpl. rewrite app_nil_r. exact C.
  - intros r e2 R2. rewrite <- app_assoc.
    eapply runs_bind_ok; [apply runs_log|]. fold l0.
    eapply runs_bind_ok.
    + apply runs_with_tqdm. exact R.
    + rewrite extend_extend. exact R2.
Qed.

(** A manifest fails: [deploy] stops there with exit code 1. *)
Lemma runs_monitoring_stopped dry timeout s pre fp post :
  history s = preflight ->
  monitoring_paths w = pre ++ fp :: post ->
  applies_ok w preflight pre dry = true ->
  apply_ok w (preflight ++ map (fun p => apply_cmd p dry) pre) fp dry = false ->
  let h := preflight ++ map (fun p => apply_cmd p dry) pre in
  exists evs,
    runs (deploy_after_preflight w "monitoring" dry timeout) s (Raise (Exit 1)) evs
    /\ cmds_of evs = map (fun p => apply_cmd p dry) pre
                     ++ (if path_exists w h fp then [apply_cmd fp dry] else [])
    /\ In (Write (failure_line w fp (apply_failure w h fp dry))) evs
    /\ incl (log_events (sinks s) ERROR ("应用清单失败: " +++ fp)
               (Some (apply_failure w h fp dry))) evs.
Proof.
  intros Hs Hsplit Hpre Hfp h. rewrite deploy_monitoring_unfold, Hsplit.
  set (l0 := log_events (sinks s) INFO "开始部署 Prometheus 与 Grafana 监控栈..." None).
  set (bar := BarOpen (length (pre ++ fp :: post)) "应用清单").
  assert (history (extend (extend s l0) [bar]) = preflight) as Hh.
  { rewrite !history_extend. subst l0. rewrite cmds_of_log_events. simpl.
    rewrite !app_nil_r. exact Hs. }
  destruct (apply_files_stops w pre fp post dry (extend (extend s l0) [bar]))
    as [ev [R [C [Wr L]]]].
  { rewrite Hh. exact Hpre. }
  { rewrite Hh. exact Hfp. }
  rewrite Hh in C, Wr, L. fold h in C, Wr, L.
  exists (l0 ++ bar :: ev ++ [BarClose]). split; [|split; [|split]].
  - eapply runs_bind_ok; [apply runs_log|]. fold l0.
    eapply runs_bind_raise. apply runs_with_tqdm. exact R.
  - subst l0. rewrite cmds_of_app, cmds_of_log_events. simpl.
    rewrite cmds_of_app. simpl. rewrite app_nil_r. exact C.
  - apply in_or_app. right. right. apply in_or_app. left. exact Wr.
  - intros x Hx. apply in_or_app. right. right. apply in_or_app. left.
    apply L. exact Hx.
Qed.


End Monitoring.

(** ** Manifest names and paths *)

Lemma append_inj_l a b c : a +++ b = a +++ c -> b = c.
Proof.
  induction a as [|x a IH]; simpl; intros H; [exact H|].
  injection H as H. auto.
Qed.

Lemma mem_char_append c a b : mem_char c (a +++ String c b) = true.
Proof.
  induction a as [|x a IH]; simpl.
  - rewrite Ascii.eqb_refl. reflexivity.
  - rewrite IH. apply orb_true_r.
Qed.

Lemma basename_plain n : mem_char "/" n = false -> basename n = n.
Proof.
  destruct n as [|c r]; [reflexivity|]. intros H.
  change (basename (String c r))
    with (if mem_char "/" (String c r) then basename r else String c r).
  rewrite H. reflexivity.
Qed.

Lemma basename_path_join dir n :
  mem_char "/" n = false -> basename (path_join dir n) = n.
Proof.
  intros H. unfold path_join. induction dir as [|c dir IH].
  - transitivity (basename n); [reflexivity | apply basename_plain; exact H].
  - change (basename (String c dir +++ "/" +++ n)) with
      (if mem_char "/" (String c (dir +++ String "/" n))
       then basename (dir +++ "/" +++ n) else String c (dir +++ String "/" n)).
    change (mem_char "/" (String c (dir +++ String "/" n)))
      with (Ascii.eqb "/" c || mem_char "/" (dir +++ String "/" n)).
    rewrite mem_char_append, orb_true_r. exact IH.
Qed.

Lemma path_join_inj dir a b : path_join dir a = path_join dir b -> a = b.
Proof.
  unfold path_join. intros H. apply append_inj_l in H. apply append_inj_l in H. exact H.
Qed.

Lemma monitoring_names_plain n : In n monitoring_names -> mem_char "/" n = false.
Proof.
  unfold monitoring_names; simpl. intros H.
  repeat (destruct H as [<-|H]; [reflexivity|]). contradiction.
Qed.

Lemma monitoring_names_nodup : NoDup monitoring_names.
Proof.
  unfold monitoring_names; simpl.
  repeat (constructor; [simpl; intuition discriminate|]). constructor.
Qed.

Lemma monitoring_paths_nodup w : NoDup (monitoring_paths w).
Proof.
  unfold monitoring_paths. apply Injective_map_NoDup.
  - intros a b. apply path_join_inj.
  - apply monitoring_names_nodup.
Qed.

Lemma monitoring_path_name w fp :
  In fp (monitoring_paths w) ->
  In (basename fp) monitoring_names
  /\ fp = path_join (resource_dir_for w "monitoring") (basename fp).
Proof.
  unfold monitoring_paths. intros H. apply in_map_iff in H.
  destruct H as [n [<- Hn]].
  rewrite (basename_path_join _ n (monitoring_names_plain n Hn)). auto.
Qed.

Lemma apply_cmd_inj a b dry : apply_cmd a dry = apply_cmd b dry -> a = b.
Proof. unfold apply_cmd. simpl. intros H. injection H. auto. Qed.

Lemma apply_cmd_not_preflight fp dry : ~ In (apply_cmd fp dry) preflight.
Proof.
  unfold apply_cmd, preflight, version_cmd, context_cmd. simpl.
  intros [H|[H|[]]]; discriminate H.
Qed.

Lemma nodup_app_disjoint {A} (a b : list A) x : NoDup (a ++ b) -> In x a -> In x b -> False.
Proof.
  induction a as [|y a IH]; simpl; intros N Ha Hb; [contradiction|].
  inversion N as [|? ? Hn N']; subst.
  destruct Ha as [->|Ha].
  - apply Hn. apply in_or_app. right. exact Hb.
  - eauto.
Qed.

(** Manifests after the failing one are never handed to the backend. *)
Lemma later_manifests_not_applied pre fp post dry (b : bool) c :
  NoDup (pre ++ fp :: post) -> In c post ->
  ~ In (apply_cmd c dry)
       (preflight ++ map (fun p => apply_cmd p dry) pre
          ++ (if b then [apply_cmd fp dry] else [])).
Proof.
  intros N Hc Hin. apply in_app_or in Hin. destruct Hin as [Hin|Hin].
  - exact (apply_cmd_not_preflight _ _ Hin).
  - apply in_app_or in Hin. destruct Hin as [Hin|Hin].
    + apply in_map_iff in Hin. destruct Hin as [x [Hx Hp]].
      apply apply_cmd_inj in Hx. subst x.
      apply (nodup_app_disjoint pre (fp :: post) c N Hp). right. exact Hc.
    + destruct b; [|contradiction]. destruct Hin as [Hin|[]].
      apply apply_cmd_inj in Hin. subst c.
      apply NoDup_app_remove_l in N. inversion N; subst. contradiction.
Qed.

(** ** Properties of [deploy] and [delete_stack] *)

Lemma append_assoc a b c : (a +++ b) +++ c = a +++ (b +++ c).
Proof. induction a as [|x a IH]; simpl; [reflexivity | rewrite IH; reflexivity]. Qed.

Lemma append_nil_r a : a +++ EmptyString = a.
Proof. induction a as [|x a IH]; simpl; [reflexivity | rewrite IH; reflexivity]. Qed.

Lemma includes_refl a : includes a a.
Proof.
  exists EmptyString, EmptyString. change (a = a +++ EmptyString).
  symmetry. apply append_nil_r.
Qed.

Lemma includes_app_l x a y : includes x y -> includes x (a +++ y).
Proof.
  intros [p [q ->]]. exists (a +++ p), q. rewrite append_assoc. reflexivity.
Qed.

Lemma includes_app_r x y b : includes x y -> includes x (y +++ b).
Proof.
  intros [p [q ->]]. exists p, (q +++ b). rewrite !append_assoc. reflexivity.
Qed.

Lemma includes_join sep l x : In x l -> includes x (join sep l).
Proof.
  induction l as [|y l IH]; [contradiction|]. intros [->|H].
  - destruct l as [|z l'].
    + apply includes_refl.
    + change (join sep (x :: z :: l')) with (x +++ sep +++ join sep (z :: l')).
      apply includes_app_r, includes_refl.
  - destruct l as [|z l']; [contradiction|].
    change (join sep (y :: z :: l')) with (y +++ sep +++ join sep (z :: l')).
    do 2 apply includes_app_l. apply IH. exact H.
Qed.

Lemma includes_repr_list l x : In x l -> includes (repr_str x) (repr_list l).
Proof.
  intros H. unfold repr_list. apply includes_app_l, includes_app_r, includes_join.
  apply in_map. exact H.
Qed.

Lemma includes_trans x y z : includes x y -> includes y z -> includes x z.
Proof.
  intros Hxy [p [q ->]]. apply includes_app_l, includes_app_r. exact Hxy.
Qed.

Lemma prefix_append x post : prefix x (x +++ post) = true.
Proof.
  induction x as [|c x IH]; simpl.
  - destruct post; reflexivity.
  - destruct (ascii_dec c c) as [_|N]; [exact IH | contradiction].
Qed.

(** [infixb] finds every occurrence: where it says no, there is none. *)
Lemma includes_infixb x y : includes x y -> infixb x y = true.
Proof.
  intros [pre [post ->]]. induction pre as [|c pre IH].
  - simpl append. destruct (x +++ post) eqn:E.
    + change (prefix x EmptyString = true). rewrite <- E. apply prefix_append.
    + change (infixb x (String a s)) with (prefix x (String a s) || infixb x s).
      rewrite <- E, prefix_append. reflexivity.
  - change (infixb x (String c pre +++ x +++ post))
      with (prefix x (String c (pre +++ x +++ post)) || infixb x (pre +++ x +++ post)).
    rewrite IH. apply orb_true_r.
Qed.

Lemma log_events_verbosity verbose lvl msg exc :
  lvl <> DEBUG -> log_events [verbosity verbose] lvl msg exc = [Log lvl msg exc].
Proof. destruct verbose, lvl; intros H; try reflexivity; contradiction. Qed.

(** A failing manifest ends [deploy]: what was sent, what was said, how it
    exits. *)
Lemma deploy_stops_at_failure w dry timeout verbose pre fp post :
  preflight_ok w = true ->
  monitoring_paths w = pre ++ fp :: post ->
  applies_ok w preflight pre dry = true ->
  apply_ok w (preflight ++ map (fun p => apply_cmd p dry) pre) fp dry = false ->
  let h := preflight ++ map (fun p => apply_cmd p dry) pre in
  let m := deploy w "monitoring" dry timeout verbose in
  let e := apply_failure w h fp dry in
  commands m = h ++ (if path_exists w h fp then [apply_cmd fp dry] else [])
  /\ (forall c, In c post -> ~ In (apply_cmd c dry) (commands m))
  /\ Forall (fun c => In c preflight \/ exists p, c = apply_cmd p dry) (commands m)
  /\ ~ In delete_namespace_cmd (commands m)
  /\ In (Write (failure_line w fp e)) (trace m)
  /\ In (basename fp) monitoring_names
  /\ includes (basename fp) (failure_line w fp e)
  /\ includes (str_exc w e) (failure_line w fp e)
  /\ In (Log ERROR ("应用清单失败: " +++ fp) (Some e)) (trace m)
  /\ outcome m = Raise (Exit 1)
  /\ exit_status (outcome m) = 1%Z
  /\ exit_status (outcome m) <> 2%Z.
Proof.
  intros Hp Hsplit Hpre Hfp h m e.
  destruct (runs_monitoring_stopped w dry timeout (after_preflight w (verbosity verbose))
              pre fp post (history_after_preflight w _) Hsplit Hpre Hfp)
    as [evs [R [C [Wr L]]]].
  fold h in C, Wr, L. fold e in Wr, L.
  destruct (invocation_passes w (verbosity verbose) _ _ _ Hp R) as [Ho [Ht Hc]].
  subst m. rewrite deploy_unfold. rewrite Ho, Ht, Hc, C.
  assert (preflight ++ map (fun p => apply_cmd p dry) pre
            ++ (if path_exists w h fp then [apply_cmd fp dry] else [])
          = h ++ (if path_exists w h fp then [apply_cmd fp dry] else [])) as Eh
    by (subst h; rewrite app_assoc; reflexivity).
  assert (Forall (fun c => In c preflight \/ exists p, c = apply_cmd p dry)
            (preflight ++ map (fun p => apply_cmd p dry) pre
               ++ (if path_exists w h fp then [apply_cmd fp dry] else []))) as Hall.
  { apply Forall_app. split; [apply Forall_forall; auto|].
    apply Forall_app. split.
    - apply Forall_forall. intros c Hc'. apply in_map_iff in Hc'.
      destruct Hc' as [p [<- _]]. eauto.
    - destruct (path_exists w h fp); [constructor; [eauto | constructor] | constructor]. }
  repeat apply conj.
  - exact Eh.
  - intros c Hc'. apply later_manifests_not_applied with (post := post); auto.
    rewrite <- Hsplit. apply monitoring_paths_nodup.
  - exact Hall.
  - intros Hd. rewrite Forall_forall in Hall. destruct (Hall _ Hd) as [H|[p H]].
    + destruct H as [H|[H|[]]]; discriminate H.
    + unfold delete_namespace_cmd, apply_cmd in H. simpl in H. discriminate H.
  - apply in_or_app. right. exact Wr.
  - apply (monitoring_path_name w fp). rewrite Hsplit. apply in_or_app. right. left. reflexivity.
  - unfold failure_line. apply includes_app_l, includes_app_r, includes_refl.
  - unfold failure_line. do 3 apply includes_app_l. apply includes_refl.
  - apply in_or_app. right. apply L.
    change (sinks (after_preflight w (verbosity verbose))) with [verbosity verbose].
    rewrite log_events_verbosity by discriminate. left. reflexivity.
  - reflexivity.
  - reflexivity.
  - discriminate.
Qed.

(** C3.  Manifests are applied in the registry's order and the first failure
    ends the run: when every manifest before [fp] went in and [fp] fails,
    the backend has received the preflight queries, the applies of the
    manifests before [fp] and (if the file exists) the apply of [fp], and
    nothing else: no later manifest is applied and nothing is deleted.  The
    failure is written out with [fp]'s file name and the exception's
    message, logged with the exception, and the process exits with code 1,
    which is not the unknown-stack code 2. *)
Theorem apply_failure_stops_the_stack w dry timeout verbose pre fp post :
  preflight_ok w = true ->
  monitoring_paths w = pre ++ fp :: post ->
  applies_ok w preflight pre dry = true ->
  apply_ok w (preflight ++ map (fun p => apply_cmd p dry) pre) fp dry = false ->
  let h := preflight ++ map (fun p => apply_cmd p dry) pre in
  let m := deploy w "monitoring" dry timeout verbose in
  let e := apply_failure w h fp dry in
  commands m = h ++ (if path_exists w h fp then [apply_cmd fp dry] else [])
  /\ (forall c, In c post -> ~ In (apply_cmd c dry) (commands m))
  /\ Forall (fun c => In c preflight \/ exists p, c = apply_cmd p dry) (commands m)
  /\ ~ In delete_namespace_cmd (commands m)
  /\ In (Write (failure_line w fp e)) (trace m)
  /\ In (basename fp) monitoring_names
  /\ includes (basename fp) (failure_line w fp e)
  /\ includes (str_exc w e) (failure_line w fp e)
  /\ In (Log ERROR ("应用清单失败: " +++ fp) (Some e)) (trace m)
  /\ outcome m = Raise (Exit 1)
  /\ exit_status (outcome m) = 1%Z
  /\ exit_status (outcome m) <> 2%Z.
Proof. exact (deploy_stops_at_failure w dry timeout verbose pre fp post). Qed.

Lemma apply_failure_stops_the_stack_witness :
  let m := deploy world_rejecting "monitoring" false "300s" false in
  commands m = [version_cmd; context_cmd;
                apply_cmd (path_of world_rejecting "namespace.yaml") false;
                apply_cmd (path_of world_rejecting "prometheus-rbac.yaml") false]
  /\ outcome m = Raise (Exit 1).
Proof.
  pose proof (apply_failure_stops_the_stack world_rejecting false "300s" false
                [path_of world_rejecting "namespace.yaml"]
                (path_of world_rejecting "prometheus-rbac.yaml")
                (map (path_of world_rejecting)
                     ["prometheus-config.yaml"; "prometheus-deployment.yaml";
                      "prometheus-service.yaml"; "grafana-deployment.yaml";
                      "grafana-service.yaml"; "monitoring-ingress.yaml"])
                eq_refl eq_refl eq_refl eq_refl) as H.
  cbv zeta in H. destruct H as (Hc & _ & _ & _ & _ & _ & _ & _ & _ & Ho & _).
  split; [exact Hc | exact Ho].
Defined.

(** C4.  A manifest that is not on disk is refused before the backend is
    involved: [apply_yaml] raises [FileNotFoundError] carrying the path, and
    the trace gains log records only, no command. *)
Theorem apply_yaml_missing_file w fp dry s :
  path_exists w (history s) fp = false ->
  fst (apply_yaml w fp dry s) = Raise (FileNotFoundError fp)
  /\ history (snd (apply_yaml w fp dry s)) = history s
  /\ events (snd (apply_yaml w fp dry s))
     = events s ++ log_events (sinks s) ERROR ("未找到清单文件: " +++ fp) None
  /\ (forall cmd cwd res,
        ~ In (Run cmd cwd res) (log_events (sinks s) ERROR ("未找到清单文件: " +++ fp) None)).
Proof.
  intros H. pose proof (runs_apply_yaml_missing w fp dry s H) as R.
  unfold runs in R. rewrite R. simpl fst. simpl snd.
  rewrite history_extend, cmds_of_log_events, app_nil_r.
  repeat apply conj; try reflexivity.
  intros cmd cwd res Hin. unfold log_events in Hin. apply in_map_iff in Hin.
  destruct Hin as [k [Hk _]]. discriminate Hk.
Qed.

Lemma apply_yaml_missing_file_witness :
  fst (apply_yaml world_empty_disk "/opt/cli/resource/monitoring/namespace.yaml" true
         init_state)
  = Raise (FileNotFoundError "/opt/cli/resource/monitoring/namespace.yaml").
Proof.
  exact (proj1 (apply_yaml_missing_file world_empty_disk
                  "/opt/cli/resource/monitoring/namespace.yaml" true init_state eq_refl)).
Defined.

(** ** The namespace query of [delete_stack] *)

Section Delete.

Variable w : World.

Lemma cmds_of_probe_events k stack : cmds_of (probe_events w k stack) = [get_namespace_cmd stack].
Proof. unfold probe_events. cmds_norm. reflexivity. Qed.

Lemma runs_delete_absent stack s rc err :
  history s = preflight ->
  respond w preflight (get_namespace_cmd stack) = Completed rc err ->
  rc <> 0%Z ->
  runs (delete_after_preflight w stack) s (Raise (Exit 0))
       (probe_events w (sinks s) stack
          ++ log_events (sinks s) WARNING (absent_warning stack) None).
Proof.
  intros Hs Hr Hrc. unfold delete_after_preflight.
  pose proof (runs_run_cmd w (get_namespace_cmd stack) None false s) as R.
  rewrite Hs in R. fold (probe_events w (sinks s) stack) in R.
  rewrite Hr in R. unfold proc_outcome in R. cbn [andb] in R.
  eapply runs_bind_ok; [exact R|]. cbn [returncode].
  apply Z.eqb_neq in Hrc. rewrite Hrc. cbn [negb].
  apply runs_log_raise.
Qed.

Lemma runs_delete_unknown stack s err :
  history s = preflight ->
  stack <> "monitoring" ->
  respond w preflight (get_namespace_cmd stack) = Completed 0 err ->
  runs (delete_after_preflight w stack) s (Raise (Exit 2))
       (probe_events w (sinks s) stack
          ++ log_events (sinks s) ERROR (unknown_error stack) None).
Proof.
  intros Hs Hne Hr. unfold delete_after_preflight.
  pose proof (runs_run_cmd w (get_namespace_cmd stack) None false s) as R.
  rewrite Hs in R. fold (probe_events w (sinks s) stack) in R.
  rewrite Hr in R. unfold proc_outcome in R. cbn [andb] in R.
  eapply runs_bind_ok; [exact R|]. cbn [returncode Z.eqb negb].
  destruct (String.eqb_spec stack "monitoring") as [E|_]; [contradiction|].
  apply runs_log_raise.
Qed.

Lemma runs_delete_not_spawned stack s errno msg :
  history s = preflight ->
  respond w preflight (get_namespace_cmd stack) = NotSpawned errno msg ->
  runs (delete_after_preflight w stack) s (Raise (OSError errno msg "kubectl"))
       (probe_events w (sinks s) stack).
Proof.
  intros Hs Hr. unfold delete_after_preflight.
  pose proof (runs_run_cmd w (get_namespace_cmd stack) None false s) as R.
  rewrite Hs in R. fold (probe_events w (sinks s) stack) in R.
  rewrite Hr in R. unfold proc_outcome in R.
  eapply runs_bind_raise. exact R.
Qed.

Lemma probe_is_not_delete stack :
  ~ In delete_namespace_cmd (preflight ++ [get_namespace_cmd stack]).
Proof.
  unfold delete_namespace_cmd, preflight, version_cmd, context_cmd, get_namespace_cmd.
  simpl. intros [H|[H|[H|[]]]]; discriminate H.
Qed.

End Delete.

(** C7.  When the existence query says the namespace is not there (it exits
    non-zero), [delete_stack] ends with exit code 0 after a warning; the
    backend has seen the preflight queries and the existence query only, no
    deletion. *)
Theorem delete_absent_namespace_is_noop w stack verbose rc err :
  preflight_ok w = true ->
  respond w preflight (get_namespace_cmd stack) = Completed rc err ->
  rc <> 0%Z ->
  let m := delete_stack w stack verbose in
  outcome m = Raise (Exit 0)
  /\ exit_status (outcome m) = 0%Z
  /\ commands m = preflight ++ [get_namespace_cmd stack]
  /\ ~ In delete_namespace_cmd (commands m)
  /\ In (Log WARNING (absent_warning stack) None) (trace m).
Proof.
  intros Hp Hr Hrc m. subst m. rewrite delete_stack_unfold.
  pose proof (runs_delete_absent w stack (after_preflight w (verbosity verbose)) rc err
                (history_after_preflight w _) Hr Hrc) as R.
  destruct (invocation_passes w _ _ _ _ Hp R) as [Ho [Ht Hc]].
  rewrite Ho, Ht, Hc. cmds_norm. rewrite cmds_of_probe_events.
  repeat apply conj; try reflexivity.
  - apply probe_is_not_delete.
  - apply in_or_app. right. apply in_or_app. right.
    change (sinks (after_preflight w (verbosity verbose))) with [verbosity verbose].
    rewrite log_events_verbosity by discriminate. left. reflexivity.
Qed.

Lemma delete_absent_namespace_is_noop_witness :
  exit_status (outcome (delete_stack world_no_namespace "monitoring" false)) = 0%Z
  /\ commands (delete_stack world_no_namespace "monitoring" false)
     = preflight ++ [get_namespace_cmd "monitoring"].
Proof.
  pose proof (delete_absent_namespace_is_noop world_no_namespace "monitoring" false
                1%Z "NotFound" eq_refl eq_refl) as H.
  assert (1 <> 0)%Z as N by discriminate.
  destruct (H N) as (_ & He & Hc & _). split; [exact He | exact Hc].
Defined.

Lemma messages_app w a b : messages w (a ++ b) = messages w a ++ messages w b.
Proof. unfold messages. apply flat_map_app. Qed.

Lemma messages_log_events w1 w2 k lvl msg :
  messages w1 (log_events k lvl msg None) = messages w2 (log_events k lvl msg None).
Proof.
  unfold log_events, messages.
  induction (filter (fun k0 => Z.leb (level_no k0) (level_no lvl)) k) as [|x l IH];
    [reflexivity|].
  cbn [map flat_map event_text]. rewrite IH. reflexivity.
Qed.

Lemma messages_preflight_events w1 w2 lvl :
  messages w1 (preflight_events w1 lvl) = messages w2 (preflight_events w2 lvl).
Proof.
  unfold preflight_events. rewrite !messages_app.
  rewrite !(messages_log_events w1 w2). reflexivity.
Qed.

Lemma messages_probe_events w1 w2 k stack :
  messages w1 (probe_events w1 k stack) = messages w2 (probe_events w2 k stack).
Proof.
  unfold probe_events. rewrite !messages_app.
  rewrite (messages_log_events w1 w2). reflexivity.
Qed.

(** C10.  [delete_stack] does not look at why the existence query failed:
    whatever non-zero code the backend returns and whatever it prints, the
    invocation exits 0 with the same commands (no deletion among them) and
    the same text, the warning that the namespace does not exist. *)
Theorem failed_namespace_query_reads_as_absent w1 w2 stack verbose rc1 err1 rc2 err2 :
  preflight_ok w1 = true -> preflight_ok w2 = true ->
  respond w1 preflight (get_namespace_cmd stack) = Completed rc1 err1 ->
  respond w2 preflight (get_namespace_cmd stack) = Completed rc2 err2 ->
  rc1 <> 0%Z -> rc2 <> 0%Z ->
  let m1 := delete_stack w1 stack verbose in
  let m2 := delete_stack w2 stack verbose in
  exit_status (outcome m1) = 0%Z
  /\ outcome m1 = outcome m2
  /\ commands m1 = commands m2
  /\ ~ In delete_namespace_cmd (commands m1)
  /\ messages w1 (trace m1) = messages w2 (trace m2)
  /\ In (absent_warning stack) (messages w1 (trace m1)).
Proof.
  intros Hp1 Hp2 Hr1 Hr2 N1 N2 m1 m2. subst m1 m2. rewrite !delete_stack_unfold.
  pose proof (runs_delete_absent w1 stack (after_preflight w1 (verbosity verbose)) rc1 err1
                (history_after_preflight w1 _) Hr1 N1) as R1.
  pose proof (runs_delete_absent w2 stack (after_preflight w2 (verbosity verbose)) rc2 err2
                (history_after_preflight w2 _) Hr2 N2) as R2.
  destruct (invocation_passes w1 _ _ _ _ Hp1 R1) as [Ho1 [Ht1 Hc1]].
  destruct (invocation_passes w2 _ _ _ _ Hp2 R2) as [Ho2 [Ht2 Hc2]].
  rewrite Ho1, Ho2, Ht1, Ht2, Hc1, Hc2. cmds_norm. rewrite !cmds_of_probe_events.
  change (sinks (after_preflight w1 (verbosity verbose))) with [verbosity verbose].
  change (sinks (after_preflight w2 (verbosity verbose))) with [verbosity verbose].
  rewrite !messages_app.
  rewrite (messages_preflight_events w1 w2), (messages_probe_events w1 w2).
  rewrite !log_events_verbosity by discriminate.
  repeat apply conj; try reflexivity.
  - apply probe_is_not_delete.
  - apply in_or_app. right. apply in_or_app. right. left. reflexivity.
Qed.

Lemma failed_namespace_query_reads_as_absent_witness :
  exit_status (outcome (delete_stack world_no_namespace "monitoring" false)) = 0%Z
  /\ outcome (delete_stack world_no_namespace "monitoring" false)
     = outcome (delete_stack world_unreachable "monitoring" false).
Proof.
  assert (1 <> 0)%Z as N1 by discriminate.
  assert (255 <> 0)%Z as N2 by discriminate.
  destruct (failed_namespace_query_reads_as_absent world_no_namespace world_unreachable
              "monitoring" false 1%Z "NotFound" 255%Z "connection refused"
              eq_refl eq_refl eq_refl eq_refl N1 N2) as (He & Ho & _).
  split; [exact He | exact Ho].
Defined.

(** C2, as the code has it.  For a stack code other than "monitoring" and a
    preflight that passed: [deploy] exits with code 2 having sent the two
    preflight queries only; [delete_stack] sends the preflight queries and
    the existence query, never a deletion, and exits with code 2 when the
    query succeeds, with code 0 when it exits non-zero. *)
Theorem unknown_stack_exits_2 w stack verbose :
  stack <> "monitoring" ->
  preflight_ok w = true ->
  (forall dry timeout,
     outcome (deploy w stack dry timeout verbose) = Raise (Exit 2)
     /\ commands (deploy w stack dry timeout verbose) = preflight)
  /\ commands (delete_stack w stack verbose) = preflight ++ [get_namespace_cmd stack]
  /\ ~ In delete_namespace_cmd (commands (delete_stack w stack verbose))
  /\ (succeeded (respond w preflight (get_namespace_cmd stack)) = true ->
      outcome (delete_stack w stack verbose) = Raise (Exit 2))
  /\ (forall rc err,
        respond w preflight (get_namespace_cmd stack) = Completed rc err -> rc <> 0%Z ->
        outcome (delete_stack w stack verbose) = Raise (Exit 0)).
Proof.
  intros Hne Hp.
  set (s0 := after_preflight w (verbosity verbose)).
  assert (exists r evs, runs (delete_after_preflight w stack) s0 r evs
            /\ cmds_of evs = [get_namespace_cmd stack]
            /\ (succeeded (respond w preflight (get_namespace_cmd stack)) = true ->
                r = Raise (Exit 2))
            /\ (forall rc err,
                  respond w preflight (get_namespace_cmd stack) = Completed rc err ->
                  rc <> 0%Z -> r = Raise (Exit 0))) as (r & evs & R & C & H2 & H0).
  { destruct (respond w preflight (get_namespace_cmd stack)) as [rc err|errno msg] eqn:E.
    - destruct (Z.eq_dec rc 0) as [->|N].
      + do 2 eexists. split; [|split; [|split]].
        * apply (runs_delete_unknown w stack s0 err (history_after_preflight w _) Hne E).
        * cmds_norm. rewrite app_nil_r. apply cmds_of_probe_events.
        * reflexivity.
        * intros rc' err' H N. injection H as <- _. contradiction.
      + do 2 eexists. split; [|split; [|split]].
        * apply (runs_delete_absent w stack s0 rc err (history_after_preflight w _) E N).
        * cmds_norm. rewrite app_nil_r. apply cmds_of_probe_events.
        * simpl. intros H. apply Z.eqb_eq in H. contradiction.
        * reflexivity.
    - do 2 eexists. split; [|split; [|split]].
      + apply (runs_delete_not_spawned w stack s0 errno msg (history_after_preflight w _) E).
      + apply cmds_of_probe_events.
      + discriminate.
      + discriminate. }
  destruct (invocation_passes w _ _ _ _ Hp R) as [Ho [_ Hc]].
  rewrite delete_stack_unfold, Ho, Hc, C.
  repeat apply conj; auto.
  - intros dry timeout. rewrite deploy_unfold.
    assert (runs (deploy_after_preflight w stack dry timeout) s0 (Raise (Exit 2))
              (log_events [verbosity verbose] ERROR (unknown_error stack) None)) as Rd.
    { rewrite (deploy_unknown_unfold w stack dry timeout Hne).
      unfold s0, after_preflight.
      apply (runs_log_raise ERROR _ None (Exit 2) (mkState [] [verbosity verbose])). }
    destruct (invocation_passes w _ _ _ _ Hp Rd) as [Hod [_ Hcd]].
    rewrite Hod, Hcd, cmds_of_log_events, app_nil_r. auto.
  - apply probe_is_not_delete.
Qed.

Lemma unknown_stack_exits_2_witness :
  outcome (deploy world_ok "elk" false "300s" false) = Raise (Exit 2)
  /\ outcome (delete_stack world_ok "elk" false) = Raise (Exit 2).
Proof.
  assert ("elk" <> "monitoring") as N by discriminate.
  destruct (unknown_stack_exits_2 world_ok "elk" false N eq_refl) as (Hd & _ & _ & H2 & _).
  split; [exact (proj1 (Hd false "300s")) | exact (H2 eq_refl)].
Defined.

(** C2 as stated fails: an unknown stack whose namespace is absent makes
    [delete_stack] exit with code 0, not 2. *)
Lemma unknown_stack_delete_exits_0 :
  "foo" <> "monitoring"
  /\ preflight_ok world_no_namespace = true
  /\ exit_status (outcome (delete_stack world_no_namespace "foo" false)) = 0%Z
  /\ exit_status (outcome (delete_stack world_no_namespace "foo" false)) <> 2%Z.
Proof. repeat apply conj; try reflexivity; discriminate. Qed.

(** C9, as the code has it.  When the backend's apply of manifest [fp] exits
    with a non-zero code [rc], [deploy] writes the line
    "失败: <file name> -> <message of CalledProcessError>" and logs the
    exception with the manifest's path.  The line holds the manifest's file
    name and the command line with the manifest's path, and for a positive
    [rc] the words "returned non-zero exit status <rc>".  The text the
    backend wrote to its stderr is no part of it: the line is the same
    whatever that text was. *)
Theorem apply_rejected_message w dry timeout verbose pre fp post rc err :
  preflight_ok w = true ->
  monitoring_paths w = pre ++ fp :: post ->
  applies_ok w preflight pre dry = true ->
  let h := preflight ++ map (fun p => apply_cmd p dry) pre in
  path_exists w h fp = true ->
  respond w h (apply_cmd fp dry) = Completed rc err ->
  rc <> 0%Z ->
  let m := deploy w "monitoring" dry timeout verbose in
  let e := CalledProcessError rc (apply_cmd fp dry) in
  let line := "失败: " +++ basename fp +++ " -> " +++ str_exc w e in
  In (Write line) (trace m)
  /\ In (basename fp) monitoring_names
  /\ includes (basename fp) line
  /\ includes (repr_list (apply_cmd fp dry)) line
  /\ includes (repr_str fp) line
  /\ ((0 < rc)%Z -> includes ("returned non-zero exit status " +++ dec_Z rc) line)
  /\ In (Log ERROR ("应用清单失败: " +++ fp) (Some e)) (trace m)
  /\ exit_status (outcome m) = 1%Z.
Proof.
  intros Hp Hsplit Hpre h Hex Hr Hrc m e line.
  assert (apply_ok w h fp dry = false) as Hbad.
  { unfold apply_ok. rewrite Hex, Hr. simpl. apply Z.eqb_neq. exact Hrc. }
  assert (apply_failure w h fp dry = e) as He.
  { unfold apply_failure. rewrite Hex, Hr. reflexivity. }
  pose proof (deploy_stops_at_failure w dry timeout verbose pre fp post
                Hp Hsplit Hpre Hbad) as H.
  cbv zeta in H. fold h in H. rewrite He in H. fold m in H.
  destruct H as (_ & _ & _ & _ & Hw & Hn & Hi & _ & Hl & _ & Hx & _).
  assert (includes (repr_list (apply_cmd fp dry)) (str_exc w e)) as Hcmd.
  { unfold e, str_exc. destruct (Z.ltb rc 0); [destruct (signal_repr w (- rc))|];
      apply includes_app_l, includes_app_r, includes_refl. }
  repeat apply conj.
  - exact Hw.
  - exact Hn.
  - exact Hi.
  - unfold line. do 3 apply includes_app_l. exact Hcmd.
  - unfold line. do 3 apply includes_app_l.
    apply includes_trans with (y := repr_list (apply_cmd fp dry)); [|exact Hcmd].
    apply includes_repr_list. unfold apply_cmd. simpl. auto.
  - intros Hpos. unfold line. do 3 apply includes_app_l.
    unfold e, str_exc.
    assert (Z.ltb rc 0 = false) as -> by (apply Z.ltb_ge; lia).
    do 2 apply includes_app_l.
    change (includes ("returned non-zero exit status " +++ dec_Z rc)
              ("' " +++ ("returned non-zero exit status " +++ dec_Z rc) +++ ".")).
    apply includes_app_l, includes_app_r, includes_refl.
  - exact Hl.
  - exact Hx.
Qed.

Lemma apply_rejected_message_witness :
  In (Write ("失败: prometheus-rbac.yaml -> Command '['kubectl', 'apply', '-f', "
             +++ "'/opt/cli/resource/monitoring/prometheus-rbac.yaml']' "
             +++ "returned non-zero exit status 1."))
     (trace (deploy world_rejecting "monitoring" false "300s" false)).
Proof.
  assert (1 <> 0)%Z as N by discriminate.
  exact (proj1 (apply_rejected_message world_rejecting false "300s" false
                  [path_of world_rejecting "namespace.yaml"]
                  (path_of world_rejecting "prometheus-rbac.yaml")
                  (map (path_of world_rejecting)
                       ["prometheus-config.yaml"; "prometheus-deployment.yaml";
                        "prometheus-service.yaml"; "grafana-deployment.yaml";
                        "grafana-service.yaml"; "monitoring-ingress.yaml"])
                  1%Z "forbidden" eq_refl eq_refl eq_refl eq_refl eq_refl N)).
Defined.

(** C9 as stated fails: the backend rejects prometheus-rbac.yaml and writes
    "forbidden" to its stderr, and no line the orchestrator writes or logs,
    even at DEBUG verbosity, holds that text. *)
Lemma rejected_apply_message_lacks_stderr :
  let w := world_rejecting in
  let h := preflight ++ [apply_cmd (path_of w "namespace.yaml") false] in
  respond w h (apply_cmd (path_of w "prometheus-rbac.yaml") false) = Completed 1 "forbidden"
  /\ ~ exists line,
         In line (messages w (trace (deploy w "monitoring" false "300s" true)))
         /\ includes "forbidden" line.
Proof.
  cbv zeta. split; [reflexivity|].
  intros [line [Hin Hinc]]. apply includes_infixb in Hinc.
  assert (forallb (fun l => negb (infixb "forbidden" l))
            (messages world_rejecting
               (trace (deploy world_rejecting "monitoring" false "300s" true))) = true) as F
    by (vm_compute; reflexivity).
  rewrite forallb_forall in F. specialize (F line Hin).
  rewrite Hinc in F. discriminate F.
Qed.

(** C1, as the code has it.  A dry-run [deploy] sends nothing but the
    preflight queries and commands of the form
    kubectl apply -f <path> --dry-run=server, whatever the stack code and
    the world: every apply it sends carries the flag [--dry-run=server] as
    its last word, and it sends no kubectl wait and no kubectl delete.  For
    "monitoring", when the preflight passes and every listed manifest exists
    and is accepted, it returns (exit code 0) having sent, after the two
    queries, one such apply per manifest in the registry's order.  For any
    other code, the registered "elk" and "hadoop" among them, it exits with
    the unknown-stack code 2 after the preflight. *)
Theorem dry_run_deploy_is_safe w timeout verbose :
  (forall stack, Forall dry_run_safe (commands (deploy w stack true timeout verbose)))
  /\ (forall stack c, In c (commands (deploy w stack true timeout verbose)) ->
        (nth 1 c EmptyString = "apply" ->
         last c EmptyString = "--dry-run=server" /\ In "--dry-run=server" c)
        /\ nth 1 c EmptyString <> "wait"
        /\ nth 1 c EmptyString <> "delete")
  /\ (preflight_ok w = true ->
      applies_ok w preflight (monitoring_paths w) true = true ->
      outcome (deploy w "monitoring" true timeout verbose) = Ok tt
      /\ exit_status (outcome (deploy w "monitoring" true timeout verbose)) = 0%Z
      /\ commands (deploy w "monitoring" true timeout verbose)
         = ["kubectl"; "version"; "--client"]
             :: ["kubectl"; "config"; "current-context"]
             :: map (fun fp => ["kubectl"; "apply"; "-f"; fp; "--dry-run=server"])
                    (monitoring_paths w))
  /\ (preflight_ok w = true ->
      forall stack, stack <> "monitoring" ->
        outcome (deploy w stack true timeout verbose) = Raise (Exit 2)
        /\ commands (deploy w stack true timeout verbose)
           = [["kubectl"; "version"; "--client"]; ["kubectl"; "config"; "current-context"]]).
Proof.
  assert (forall stack,
            Forall dry_run_safe (commands (deploy w stack true timeout verbose))) as Hsafe.
  { intros stack. rewrite deploy_unfold.
    assert (tracked dry_run_safe
              (invocation w (verbosity verbose)
                 (deploy_after_preflight w stack true timeout))) as T.
    { apply tracked_invocation.
      - left. reflexivity.
      - right. left. reflexivity.
      - apply tracked_deploy_after.
        + intros fp. right. right. exists fp. reflexivity.
        + discriminate. }
    destruct (tracked_grows _ _ T init_state) as (r & evs & k & E & F).
    unfold commands, trace. rewrite E. exact F. }
  repeat apply conj.
  - exact Hsafe.
  - intros stack c Hc. specialize (Hsafe stack). rewrite Forall_forall in Hsafe.
    destruct (Hsafe c Hc) as [->|[->|[fp ->]]]; repeat apply conj;
      try discriminate; intros _; split; try reflexivity.
    simpl. auto 6.
  - intros Hp Hok. rewrite deploy_unfold.
    destruct (runs_monitoring_applied w true timeout (after_preflight w (verbosity verbose))
                (history_after_preflight w _) Hok) as [e1 [C1 K]].
    specialize (K (Ok tt) _ (runs_log INFO "干跑完成，未实际创建资源。" None _)).
    destruct (invocation_passes w _ _ _ _ Hp K) as [Ho [_ Hc]].
    rewrite Ho, Hc. cmds_norm. rewrite C1, app_nil_r. auto.
  - intros Hp stack Hne. rewrite deploy_unfold.
    assert (runs (deploy_after_preflight w stack true timeout)
              (after_preflight w (verbosity verbose)) (Raise (Exit 2))
              (log_events [verbosity verbose] ERROR (unknown_error stack) None)) as Rd.
    { rewrite (deploy_unknown_unfold w stack true timeout Hne).
      unfold after_preflight.
      apply (runs_log_raise ERROR _ None (Exit 2) (mkState [] [verbosity verbose])). }
    destruct (invocation_passes w _ _ _ _ Hp Rd) as [Hod [_ Hcd]].
    rewrite Hod, Hcd, cmds_of_log_events, app_nil_r. auto.
Qed.

Lemma dry_run_deploy_is_safe_witness :
  commands (deploy world_ok "monitoring" true "300s" false)
  = [ ["kubectl"; "version"; "--client"];
      ["kubectl"; "config"; "current-context"];
      ["kubectl"; "apply"; "-f"; "/opt/cli/resource/monitoring/namespace.yaml";
       "--dry-run=server"];
      ["kubectl"; "apply"; "-f"; "/opt/cli/resource/monitoring/prometheus-rbac.yaml";
       "--dry-run=server"];
      ["kubectl"; "apply"; "-f"; "/opt/cli/resource/monitoring/prometheus-config.yaml";
       "--dry-run=server"];
      ["kubectl"; "apply"; "-f"; "/opt/cli/resource/monitoring/prometheus-deployment.yaml";
       "--dry-run=server"];
      ["kubectl"; "apply"; "-f"; "/opt/cli/resource/monitoring/prometheus-service.yaml";
       "--dry-run=server"];
      ["kubectl"; "apply"; "-f"; "/opt/cli/resource/monitoring/grafana-deployment.yaml";
       "--dry-run=server"];
      ["kubectl"; "apply"; "-f"; "/opt/cli/resource/monitoring/grafana-service.yaml";
       "--dry-run=server"];
      ["kubectl"; "apply"; "-f"; "/opt/cli/resource/monitoring/monitoring-ingress.yaml";
       "--dry-run=server"] ]
  /\ outcome (deploy world_ok "monitoring" true "300s" false) = Ok tt
  /\ outcome (deploy world_ok "hadoop" true "300s" false) = Raise (Exit 2).
Proof.
  assert ("hadoop" <> "monitoring") as N by discriminate.
  destruct (dry_run_deploy_is_safe world_ok "300s" false) as (_ & _ & Hm & Hu).
  destruct (Hm eq_refl eq_refl) as (Ho & _ & Hc).
  split; [exact Hc | split; [exact Ho | exact (proj1 (Hu eq_refl "hadoop" N))]].
Defined.

(** C1 as stated fails: "elk" is registered, its (empty) manifest list is
    well-formed and the preflight passes, yet a dry-run [deploy] exits with
    code 2. *)
Lemma registered_elk_dry_run_exits_2 :
  In "elk" stack_keys
  /\ preflight_ok world_ok = true
  /\ applies_ok world_ok preflight (stack_paths world_ok "elk") true = true
  /\ exit_status (outcome (deploy world_ok "elk" true "300s" false)) = 2%Z
  /\ exit_status (outcome (deploy world_ok "elk" true "300s" false)) <> 0%Z.
Proof.
  repeat apply conj; try reflexivity.
  - right. left. reflexivity.
  - discriminate.
Qed.




(** C5.  In every invocation of [deploy] and of [delete_stack] the client
    version query and the current-context query come first: any other
    command in the trace comes after both, and both succeeded.  When the
    preflight fails the invocation ends with the exception raised there,
    having sent the version query alone or the two queries: no apply, no
    deletion. *)
Theorem preflight_runs_first w stack dry timeout verbose :
  preflight_first w (deploy w stack dry timeout verbose)
  /\ preflight_first w (delete_stack w stack verbose).
Proof.
  split.
  - rewrite deploy_unfold. apply invocation_preflight_first with (P := fun _ => True).
    apply tracked_deploy_after; auto.
  - rewrite delete_stack_unfold. apply invocation_preflight_first with (P := fun _ => True).
    apply tracked_delete_after; auto.
Qed.

(** C8.  The verbose flag changes neither how an invocation ends nor what
    it sends to the backend: for [deploy] and for [delete_stack], with any
    stack code, options and world, the outcome, the exit status and the
    sequence of commands are the same with the flag set and unset.  What the
    flag changes is the log: the trace without the flag is the trace with
    it, less the DEBUG records. *)
Theorem verbose_changes_nothing w stack dry timeout :
  outcome (deploy w stack dry timeout true) = outcome (deploy w stack dry timeout false)
  /\ exit_status (outcome (deploy w stack dry timeout true))
     = exit_status (outcome (deploy w stack dry timeout false))
  /\ commands (deploy w stack dry timeout true) = commands (deploy w stack dry timeout false)
  /\ trace (deploy w stack dry timeout false)
     = without_debug (trace (deploy w stack dry timeout true))
  /\ outcome (delete_stack w stack true) = outcome (delete_stack w stack false)
  /\ exit_status (outcome (delete_stack w stack true))
     = exit_status (outcome (delete_stack w stack false))
  /\ commands (delete_stack w stack true) = commands (delete_stack w stack false)
  /\ trace (delete_stack w stack false) = without_debug (trace (delete_stack w stack true)).
Proof.
  rewrite !deploy_unfold, !delete_stack_unfold. cbn [verbosity].
  destruct (invocation_verbosity w _ (verbosity_only_deploy_after w stack dry timeout))
    as [Ho Ht].
  destruct (invocation_verbosity w _ (verbosity_only_delete_after w stack)) as [Ho' Ht'].
  unfold commands. rewrite Ho, Ho', Ht, Ht', !cmds_of_without_debug.
  repeat apply conj; reflexivity.
Qed.

(** A run on which the first readiness wait times out: the grafana wait is
    never sent and the uncaught [CalledProcessError] ends the process. *)
Example prometheus_timeout_skips_grafana :
  commands (deploy world_wait_timeout "monitoring" false "300s" false)
  = (preflight ++ map (fun fp => apply_cmd fp false) (monitoring_paths world_wait_timeout))
      ++ [wait_cmd "app=prometheus" "monitoring" "300s"]
  /\ exit_status (outcome (deploy world_wait_timeout "monitoring" false "300s" false)) = 1%Z.
Proof. split; reflexivity. Qed.

(** * Further properties of main.py *)

(** ** One command at a time: [run_cmd], [ensure_kubectl], [apply_yaml] *)

Lemma runs_functional {A} (m : M A) s r evs r' evs' :
  runs m s r evs -> runs m s r' evs' -> r = r' /\ evs = evs'.
Proof.
  unfold runs. intros H H'. rewrite H in H'.
  assert (r = r') as Hr by congruence.
  assert (events (extend s evs) = events (extend s evs')) as He by congruence.
  split; [exact Hr|]. cbn [events extend] in He.
  apply app_inv_head in He. exact He.
Qed.

Lemma succeeded_outcome res cmd :
  succeeded res = true -> proc_outcome res cmd true = Ok (mkCompleted cmd 0).
Proof.
  destruct res as [rc err|]; simpl; [|discriminate]. intros H.
  rewrite H. apply Z.eqb_eq in H. subst rc. reflexivity.
Qed.

Lemma failed_outcome res cmd :
  succeeded res = false -> proc_outcome res cmd true = Raise (check_failure res cmd).
Proof.
  destruct res as [rc err|]; simpl; [|reflexivity]. intros H. rewrite H. reflexivity.
Qed.

(** X2.  When the client version query does not succeed, [ensure_kubectl]
    stops there: the current-context query is never sent, the "kubectl not
    found" error is logged, and the exception of the failed query is raised
    again unchanged. *)
Theorem ensure_kubectl_version_failure w s :
  let res := respond w (history s) version_cmd in
  succeeded res = false ->
  ensure_kubectl w s
  = (Raise (check_failure res version_cmd),
     extend s (log_events (sinks s) DEBUG (debug_line version_cmd None) None
                 ++ [Run version_cmd None res]
                 ++ log_events (sinks s) ERROR kubectl_missing_error None))
  /\ history (snd (ensure_kubectl w s)) = history s ++ [version_cmd]
  /\ ~ In context_cmd (cmds_of (log_events (sinks s) DEBUG (debug_line version_cmd None) None
                                  ++ [Run version_cmd None res]
                                  ++ log_events (sinks s) ERROR kubectl_missing_error None)).
Proof.
  intros res Hf.
  pose proof (runs_run_cmd w version_cmd None true s) as R1. fold res in R1.
  rewrite (failed_outcome _ _ Hf) in R1.
  assert (runs (ensure_kubectl w) s (Raise (check_failure res version_cmd))
            ((log_events (sinks s) DEBUG (debug_line version_cmd None) None
                ++ [Run version_cmd None res])
               ++ log_events (sinks s) ERROR kubectl_missing_error None)) as R.
  { unfold ensure_kubectl. eapply runs_bind_raise. eapply runs_try_raise.
    - eapply runs_bind_raise. exact R1.
    - apply runs_log_raise. }
  unfold runs in R. rewrite <- app_assoc in R. rewrite R. cbn [snd].
  rewrite history_extend. cmds_norm.
  repeat apply conj; try reflexivity.
  intros [H|[]]. discriminate H.
Qed.

Lemma ensure_kubectl_version_failure_witness :
  fst (ensure_kubectl world_no_kubectl init_state)
  = Raise (OSError 2 "No such file or directory" "kubectl").
Proof.
  pose proof (ensure_kubectl_version_failure world_no_kubectl init_state eq_refl) as H.
  destruct H as [H _]. rewrite H. reflexivity.
Defined.

(** X3.  When the version query succeeds and the current-context query
    does not, [ensure_kubectl] has sent both, in that order, logs the "no
    context configured" error and not the "kubectl not found" one, and
    raises the exception of the context query. *)
Theorem ensure_kubectl_context_failure w s :
  let res1 := respond w (history s) version_cmd in
  let res2 := respond w (history s ++ [version_cmd]) context_cmd in
  succeeded res1 = true ->
  succeeded res2 = false ->
  ensure_kubectl w s
  = (Raise (check_failure res2 context_cmd),
     extend s (log_events (sinks s) DEBUG (debug_line version_cmd None) None
                 ++ [Run version_cmd None res1]
                 ++ log_events (sinks s) DEBUG (debug_line context_cmd None) None
                 ++ [Run context_cmd None res2]
                 ++ log_events (sinks s) ERROR context_missing_error None))
  /\ history (snd (ensure_kubectl w s)) = history s ++ [version_cmd; context_cmd].
Proof.
  intros res1 res2 H1 H2.
  pose proof (runs_run_cmd w version_cmd None true s) as R1. fold res1 in R1.
  rewrite (succeeded_outcome _ _ H1) in R1.
  set (e1 := log_events (sinks s) DEBUG (debug_line version_cmd None) None
               ++ [Run version_cmd None res1]) in *.
  pose proof (runs_run_cmd w context_cmd None true (extend s e1)) as R2.
  assert (history (extend s e1) = history s ++ [version_cmd]) as Hh.
  { rewrite history_extend. subst e1. cmds_norm. reflexivity. }
  rewrite Hh in R2. fold res2 in R2. rewrite (failed_outcome _ _ H2) in R2.
  assert (runs (ensure_kubectl w) s (Raise (check_failure res2 context_cmd))
            (e1 ++ (log_events (sinks s) DEBUG (debug_line context_cmd None) None
                      ++ [Run context_cmd None res2])
                ++ log_events (sinks s) ERROR context_missing_error None)) as R.
  { unfold ensure_kubectl. eapply runs_bind_ok.
    - apply runs_try_ok. eapply runs_then_ret. exact R1.
    - eapply runs_try_raise.
      + eapply runs_bind_raise. exact R2.
      + apply (runs_log_raise ERROR context_missing_error None _ (extend s e1)). }
  unfold runs in R. subst e1. rewrite <- !app_assoc in R. rewrite R. cbn [snd].
  rewrite history_extend. cmds_norm. split; reflexivity.
Qed.

Lemma ensure_kubectl_context_failure_witness :
  fst (ensure_kubectl world_no_context init_state)
  = Raise (CalledProcessError 1 context_cmd).
Proof.
  pose proof (ensure_kubectl_context_failure world_no_context init_state eq_refl eq_refl) as H.
  destruct H as [H _]. rewrite H. reflexivity.
Defined.

(** X4.  For a manifest that is on disk, [apply_yaml] sends exactly one
    command: kubectl apply -f <path>, followed by [--dry-run=server] exactly
    when [dry_run] is set.  It returns when the backend exits 0 and raises
    [CalledProcessError] with the backend's return code otherwise; it logs
    no error of its own. *)
Theorem apply_yaml_existing_file w fp (dry : bool) s :
  path_exists w (history s) fp = true ->
  let cmd : Cmd := "kubectl" :: "apply" :: "-f" :: fp
                     :: (if dry then ["--dry-run=server"] else []) in
  let res := respond w (history s) cmd in
  history (snd (apply_yaml w fp dry s)) = history s ++ [cmd]
  /\ (succeeded res = true -> fst (apply_yaml w fp dry s) = Ok tt)
  /\ (succeeded res = false ->
      fst (apply_yaml w fp dry s) = Raise (check_failure res cmd))
  /\ (forall msg exc, ~ In (Log ERROR msg exc)
                          (skipn (length (events s)) (events (snd (apply_yaml w fp dry s))))).
Proof.
  intros Hex cmd res.
  pose proof (runs_apply_yaml_present w fp dry s Hex) as R.
  change (apply_cmd fp dry) with cmd in R. fold res in R.
  unfold runs in R. rewrite R. cbn [fst snd].
  rewrite history_extend. cmds_norm.
  repeat apply conj.
  - reflexivity.
  - intros H. rewrite (succeeded_outcome _ _ H). reflexivity.
  - intros H. rewrite (failed_outcome _ _ H). reflexivity.
  - intros msg exc. rewrite events_extend, skipn_app, skipn_all, Nat.sub_diag. simpl.
    rewrite in_app_iff. intros [H|[H|[]]]; [|discriminate H].
    unfold log_events in H. apply in_map_iff in H. destruct H as [k [H _]].
    discriminate H.
Qed.

Lemma apply_yaml_existing_file_witness :
  fst (apply_yaml world_ok "/opt/cli/resource/monitoring/namespace.yaml" true init_state)
  = Ok tt.
Proof.
  pose proof (apply_yaml_existing_file world_ok
                "/opt/cli/resource/monitoring/namespace.yaml" true init_state eq_refl) as H.
  cbv zeta in H. destruct H as (_ & H & _). exact (H eq_refl).
Defined.

(** ** The apply loop: progress and exit code *)

Lemma progress_of_app a b : progress_of (a ++ b) = progress_of a + progress_of b.
Proof.
  induction a as [|e a IH]; [reflexivity|].
  destruct e; simpl; rewrite IH; try reflexivity. apply Nat.add_assoc.
Qed.

Lemma progress_of_log_events k lvl msg exc : progress_of (log_events k lvl msg exc) = 0.
Proof.
  unfold log_events.
  induction (filter (fun k0 => Z.leb (level_no k0) (level_no lvl)) k); simpl; auto.
Qed.

(** Pushes [progress_of] through a trace built from appends and single
    events. *)
Ltac progress_norm :=
  repeat first [ rewrite progress_of_app
               | rewrite progress_of_log_events
               | progress (cbn [progress_of app]) ].

Section Progress.

Variable w : World.

Lemma apply_one_progress fp dry s :
  exists r evs,
    runs (apply_one w fp dry) s r evs
    /\ (if apply_ok w (history s) fp dry
        then r = Ok tt /\ cmds_of evs = [apply_cmd fp dry] /\ progress_of evs = 1
        else r = Raise (Exit 1) /\ progress_of evs = 0).
Proof.
  destruct (apply_ok w (history s) fp dry) eqn:Hok.
  - pose proof Hok as Hok'. unfold apply_ok in Hok'. apply andb_prop in Hok'.
    destruct Hok' as [Hex Hs].
    pose proof (runs_apply_yaml_present w fp dry
                  (extend s [Write ("应用: " +++ basename fp)])) as R.
    rewrite history_extend in R. simpl cmds_of in R. rewrite app_nil_r in R.
    specialize (R Hex). rewrite (succeeded_outcome _ _ Hs) in R.
    exists (Ok tt). eexists. split.
    + unfold apply_one. apply runs_try_ok.
      eapply runs_bind_ok; [apply runs_emit|].
      eapply runs_bind_ok; [exact R|]. apply runs_emit.
    + repeat apply conj; [reflexivity | cmds_norm; reflexivity |].
      rewrite !progress_of_app, progress_of_log_events. reflexivity.
  - destruct (apply_one_fails w fp dry s Hok) as [evs [R _]].
    exists (Raise (Exit 1)), evs. split; [exact R|]. split; [reflexivity|].
    (* the failing turn never reaches pbar.update *)
    assert (exists e body,
              runs (bind (tqdm_write ("应用: " +++ basename fp))
                      (fun _ => bind (apply_yaml w fp dry) (fun _ => pbar_update 1)))
                   s (Raise e) body /\ progress_of body = 0) as (e & body & Rb & Pb).
    { pose proof (runs_apply_yaml_present w fp dry
                    (extend s [Write ("应用: " +++ basename fp)])) as RP.
      pose proof (runs_apply_yaml_missing w fp dry
                    (extend s [Write ("应用: " +++ basename fp)])) as RM.
      rewrite history_extend in RP, RM. simpl cmds_of in RP, RM.
      rewrite app_nil_r in RP, RM.
      unfold apply_ok in Hok.
      destruct (path_exists w (history s) fp).
      - simpl in Hok. specialize (RP eq_refl). rewrite (failed_outcome _ _ Hok) in RP.
        do 2 eexists. split.
        + eapply runs_bind_ok; [apply runs_emit|]. eapply runs_bind_raise. exact RP.
        + rewrite !progress_of_app, progress_of_log_events. reflexivity.
      - specialize (RM eq_refl). do 2 eexists. split.
        + eapply runs_bind_ok; [apply runs_emit|]. eapply runs_bind_raise. exact RM.
        + rewrite !progress_of_app, progress_of_log_events. reflexivity. }
    assert (runs (apply_one w fp dry) s (Raise (Exit 1))
              (body ++ [Write (failure_line w fp e)]
                  ++ log_events (sinks s) ERROR ("应用清单失败: " +++ fp) (Some e))) as R'.
    { unfold apply_one. eapply runs_try_raise; [exact Rb|].
      eapply runs_bind_ok; [apply runs_emit|].
      apply (runs_log_raise ERROR _ (Some e) (Exit 1) (extend s body)). }
    destruct (runs_functional _ _ _ _ _ _ R R') as [_ ->].
    rewrite !progress_of_app, Pb, progress_of_log_events. reflexivity.
Qed.

Lemma apply_files_progress fps dry : forall s,
  exists r evs,
    runs (apply_files w fps dry) s r evs
    /\ progress_of evs = applied_count w (history s) fps dry
    /\ (r = Ok tt /\ applied_count w (history s) fps dry = length fps
        \/ r = Raise (Exit 1) /\ applied_count w (history s) fps dry < length fps).
Proof.
  induction fps as [|fp rest IH]; intros s.
  - exists (Ok tt), []. split; [apply runs_ret|]. simpl. auto.
  - destruct (apply_one_progress fp dry s) as (r1 & e1 & R1 & H1).
    cbn [applied_count length].
    destruct (apply_ok w (history s) fp dry).
    + destruct H1 as (-> & C1 & P1).
      destruct (IH (extend s e1)) as (r2 & e2 & R2 & P2 & H2).
      rewrite history_extend, C1 in P2, H2.
      exists r2, (e1 ++ e2). split; [|split].
      * cbn [apply_files]. eapply runs_bind_ok; eassumption.
      * rewrite progress_of_app, P1, P2. reflexivity.
      * destruct H2 as [[-> E]|[-> E]]; [left | right]; split; auto; lia.
    + destruct H1 as (-> & P1).
      exists (Raise (Exit 1)), e1. split; [|split].
      * cbn [apply_files]. eapply runs_bind_raise. exact R1.
      * exact P1.
      * right. split; [reflexivity | lia].
Qed.

End Progress.

(** X5.  The loop over the manifests advances the progress bar by exactly
    one unit per manifest that went in, and by none for the one that fails:
    after the loop the bar shows [applied_count], the number of manifests at
    the head of the list that exist and are accepted.  The loop ends in one
    of two ways only: it returns, having applied the whole list, or it
    raises [typer.Exit(1)]; a missing file, a rejected manifest and a
    kubectl that cannot be started all end as exit code 1.  The log handlers
    are left as they were. *)
Theorem apply_loop_progress w fps dry s :
  let done := applied_count w (history s) fps dry in
  let after := apply_files w fps dry s in
  progress_of (skipn (length (events s)) (events (snd after))) = done
  /\ done <= length fps
  /\ sinks (snd after) = sinks s
  /\ (done = length fps -> fst after = Ok tt)
  /\ (done < length fps -> fst after = Raise (Exit 1)).
Proof.
  intros done after.
  destruct (apply_files_progress w fps dry s) as (r & evs & R & P & H).
  fold done in P, H. unfold runs in R. subst after. rewrite R. cbn [fst snd].
  rewrite events_extend, skipn_app, skipn_all, Nat.sub_diag. simpl.
  repeat apply conj.
  - exact P.
  - destruct H as [[_ E]|[_ E]]; lia.
  - reflexivity.
  - intros E. destruct H as [[-> _]|[_ L]]; [reflexivity | lia].
  - intros L. destruct H as [[_ E]|[-> _]]; [lia | reflexivity].
Qed.

(** ** What the trace of a command can hold *)

Section Appends.

Variable w : World.

(** [Q] is a property of stretches of trace that survives concatenation;
    [P] says which commands and [L] which log levels it admits. *)
Variable Q : list Event -> Prop.
Variable P : Cmd -> Prop.
Variable L : Level -> Prop.

Hypothesis Q_nil : Q [].
Hypothesis Q_app : forall a b, Q a -> Q b -> Q (a ++ b).
Hypothesis Q_log : forall lvl msg exc, L lvl -> Q [Log lvl msg exc].
Hypothesis Q_write : forall msg, Q [Write msg].
Hypothesis Q_update : forall n, Q [BarUpdate n].
Hypothesis Q_bar : forall total desc evs, Q evs -> Q (BarOpen total desc :: evs ++ [BarClose]).
Hypothesis Q_run : forall cmd cwd res, P cmd -> Q [Run cmd cwd res].

Lemma appends_ret {A} (a : A) : appends Q (ret a).
Proof. intros s. exists (Ok a), []. split; [apply runs_ret | exact Q_nil]. Qed.

Lemma appends_raise {A} e : appends Q (@raise A e).
Proof. intros s. exists (Raise e), []. split; [apply runs_raise | exact Q_nil]. Qed.

Lemma appends_bind {A B} (m : M A) (k : A -> M B) :
  appends Q m -> (forall a, appends Q (k a)) -> appends Q (bind m k).
Proof.
  intros Hm Hk s. destruct (Hm s) as (r & e1 & R1 & Q1). destruct r as [a|e].
  - destruct (Hk a (extend s e1)) as (r2 & e2 & R2 & Q2).
    exists r2, (e1 ++ e2). split; [eapply runs_bind_ok; eassumption | auto].
  - exists (Raise e), e1. split; [apply runs_bind_raise; exact R1 | exact Q1].
Qed.

Lemma appends_try {A} (body : M A) handler :
  appends Q body -> (forall e, appends Q (handler e)) -> appends Q (try_except body handler).
Proof.
  intros Hm Hk s. destruct (Hm s) as (r & e1 & R1 & Q1). destruct r as [a|e].
  - exists (Ok a), e1. split; [apply runs_try_ok; exact R1 | exact Q1].
  - destruct (Hk e (extend s e1)) as (r2 & e2 & R2 & Q2).
    exists r2, (e1 ++ e2). split; [eapply runs_try_raise; eassumption | auto].
Qed.

Lemma Q_log_events k lvl msg exc : L lvl -> Q (log_events k lvl msg exc).
Proof.
  intros Hl. unfold log_events.
  induction (filter (fun k0 => Z.leb (level_no k0) (level_no lvl)) k) as [|x l IH].
  - exact Q_nil.
  - change (Q ([Log lvl msg exc] ++ map (fun _ => Log lvl msg exc) l)). auto.
Qed.

Lemma appends_log lvl msg exc : L lvl -> appends Q (logger_log lvl msg exc).
Proof.
  intros Hl s. exists (Ok tt). eexists. split; [apply runs_log|].
  apply Q_log_events. exact Hl.
Qed.

Lemma appends_emit_write msg : appends Q (tqdm_write msg).
Proof. intros s. exists (Ok tt), [Write msg]. split; [apply runs_emit | auto]. Qed.

Lemma appends_emit_update n : appends Q (pbar_update n).
Proof. intros s. exists (Ok tt), [BarUpdate n]. split; [apply runs_emit | auto]. Qed.

Lemma appends_with_tqdm {A} (body : M A) total desc :
  appends Q body -> appends Q (with_tqdm total desc body).
Proof.
  intros Hm s. destruct (Hm (extend s [BarOpen total desc])) as (r & evs & R & Qe).
  exists r. eexists. split; [apply runs_with_tqdm; exact R | auto].
Qed.

Lemma appends_run_cmd cmd cwd check :
  L DEBUG -> P cmd -> appends Q (run_cmd w cmd cwd check).
Proof.
  intros Hl Hp s. do 2 eexists. split; [apply runs_run_cmd|].
  apply Q_app; [apply Q_log_events; exact Hl | apply Q_run; exact Hp].
Qed.

Lemma appends_file_exists p : appends Q (file_exists w p).
Proof.
  intros s. exists (Ok (path_exists w (history s) p)), []. split; [|exact Q_nil].
  unfold runs, file_exists. rewrite extend_nil. reflexivity.
Qed.

Hypothesis L_debug : L DEBUG.
Hypothesis L_info : L INFO.
Hypothesis L_warning : L WARNING.
Hypothesis L_error : L ERROR.

(** Breaks a program of the model into its primitives. *)
Ltac appends_steps :=
  repeat first
    [ apply appends_ret
    | apply appends_raise
    | apply appends_emit_write
    | apply appends_emit_update
    | apply appends_file_exists
    | apply appends_log; assumption
    | apply appends_run_cmd; [assumption | assumption]
    | apply appends_with_tqdm
    | apply appends_try
    | apply appends_bind
    | intro ].

Lemma appends_ensure_kubectl :
  P version_cmd -> P context_cmd -> appends Q (ensure_kubectl w).
Proof. intros Hv Hc. unfold ensure_kubectl, logger_error. appends_steps. Qed.

Lemma appends_apply_files fps dry :
  (forall fp, P (apply_cmd fp dry)) -> appends Q (apply_files w fps dry).
Proof.
  intros Hp. induction fps as [|fp rest IH]; cbn [apply_files].
  - apply appends_ret.
  - apply appends_bind; [|intros _; exact IH].
    pose proof (Hp fp) as Hfp.
    unfold apply_one, apply_yaml, logger_exception, logger_error.
    apply appends_try; [|appends_steps].
    apply appends_bind; [appends_steps | intros _].
    apply appends_bind; [|appends_steps].
    apply appends_bind; [appends_steps | intros [|]; cbn [negb]; appends_steps].
Qed.

(** The two readiness waits of [deploy], inside their progress bar. *)
Lemma appends_waits timeout :
  (forall label, P (wait_cmd label "monitoring" timeout)) ->
  appends Q
    (with_tqdm 2 "等待Pod就绪"
       (tqdm_write "等待 Prometheus Pod 就绪..." ;;
        kubectl_wait w "app=prometheus" "monitoring" (Some timeout) ;;
        pbar_update 1 ;;
        tqdm_write "等待 Grafana Pod 就绪..." ;;
        kubectl_wait w "app=grafana" "monitoring" (Some timeout) ;;
        pbar_update 1)).
Proof.
  intros Hp. pose proof (Hp "app=prometheus") as H1. pose proof (Hp "app=grafana") as H2.
  unfold kubectl_wait. appends_steps.
Qed.

Lemma appends_delete_after stack :
  P (get_namespace_cmd stack) -> P delete_namespace_cmd ->
  appends Q (delete_after_preflight w stack).
Proof.
  intros Hg Hd. unfold delete_after_preflight.
  apply appends_bind; [appends_steps | intros result].
  destruct (negb (Z.eqb (returncode result) 0)); [unfold logger_warning; appends_steps|].
  destruct (String.eqb stack "monitoring");
    unfold logger_info, logger_error; appends_steps.
Qed.

Lemma guarded_of_appends {A} (m : M A) : appends Q m -> guarded Q m.
Proof. intros H s. destruct (H s) as (r & evs & R & Qe). exists r, evs. auto. Qed.

Lemma guarded_of_returns {A} (m : M A) : returns m -> guarded Q m.
Proof.
  intros H s. destruct (H s) as (a & evs & R). exists (Ok a), evs.
  split; [exact R | discriminate].
Qed.

Lemma guarded_bind {A B} (m : M A) (k : A -> M B) :
  appends Q m -> (forall a, guarded Q (k a)) -> guarded Q (bind m k).
Proof.
  intros Hm Hk s. destruct (Hm s) as (r & e1 & R1 & Q1). destruct r as [a|e].
  - destruct (Hk a (extend s e1)) as (r2 & e2 & R2 & Q2).
    exists r2, (e1 ++ e2). split; [eapply runs_bind_ok; eassumption|].
    intros e He. eauto.
  - exists (Raise e), e1. split; [apply runs_bind_raise; exact R1 | auto].
Qed.

Lemma returns_log lvl msg exc : returns (logger_log lvl msg exc).
Proof. intros s. do 2 eexists. apply runs_log. Qed.

Lemma returns_bind {A B} (m : M A) (k : A -> M B) :
  returns m -> (forall a, returns (k a)) -> returns (bind m k).
Proof.
  intros Hm Hk s. destruct (Hm s) as (a & e1 & R1).
  destruct (Hk a (extend s e1)) as (b & e2 & R2).
  exists b, (e1 ++ e2). eapply runs_bind_ok; eassumption.
Qed.

(** [deploy] after the preflight: when it raises, and throughout a dry run
    or a run on an unknown stack, the trace stays within [Q] even if [Q]
    excludes the closing SUCCESS record. *)
Lemma guarded_deploy_after stack dry timeout :
  (forall fp, P (apply_cmd fp dry)) ->
  (forall label, P (wait_cmd label "monitoring" timeout)) ->
  guarded Q (deploy_after_preflight w stack dry timeout)
  /\ (dry = true \/ stack <> "monitoring" ->
      appends Q (deploy_after_preflight w stack dry timeout)).
Proof.
  intros Ha Hw.
  destruct (String.eqb_spec stack "monitoring") as [->|Hne].
  - rewrite deploy_monitoring_unfold.
    assert (appends Q (with_tqdm (length (monitoring_paths w)) "应用清单"
                                 (apply_files w (monitoring_paths w) dry))) as Hloop
      by (apply appends_with_tqdm, appends_apply_files; exact Ha).
    destruct dry; cbn [deploy_finish negb].
    + assert (appends Q (logger_info "开始部署 Prometheus 与 Grafana 监控栈..." ;;
                         with_tqdm (length (monitoring_paths w)) "应用清单"
                                   (apply_files w (monitoring_paths w) true) ;;
                         logger_info "干跑完成，未实际创建资源。")) as H.
      { apply appends_bind; [apply appends_log; exact L_info | intros _].
        apply appends_bind; [exact Hloop | intros _].
        apply appends_log; exact L_info. }
      split; [apply guarded_of_appends; exact H | intros _; exact H].
    + split.
      * apply guarded_bind; [apply appends_log; exact L_info | intros _].
        apply guarded_bind; [exact Hloop | intros _].
        apply guarded_bind; [apply appends_waits; exact Hw | intros _].
        apply guarded_of_returns.
        repeat (apply returns_bind; [apply returns_log | intros _]).
        apply returns_log.
      * intros [H|H]; [discriminate H | contradiction].
  - rewrite (deploy_unknown_unfold w stack dry timeout Hne).
    assert (appends Q (logger_error ("未知栈 '" +++ stack +++ "'，可用: monitoring") ;;
                       @raise unit (Exit 2))) as H.
    { apply appends_bind; [apply appends_log; exact L_error | intros _].
      apply appends_raise. }
    split; [apply guarded_of_appends; exact H | intros _; exact H].
Qed.

Lemma appends_deploy_after stack dry timeout :
  L SUCCESS ->
  (forall fp, P (apply_cmd fp dry)) ->
  (forall label, P (wait_cmd label "monitoring" timeout)) ->
  appends Q (deploy_after_preflight w stack dry timeout).
Proof.
  intros Ls Ha Hw.
  destruct (guarded_deploy_after stack dry timeout Ha Hw) as [_ Hdry].
  destruct dry; [apply Hdry; left; reflexivity|].
  destruct (String.eqb_spec stack "monitoring") as [->|Hne]; [|apply Hdry; right; exact Hne].
  rewrite deploy_monitoring_unfold. cbn [deploy_finish negb].
  apply appends_bind; [apply appends_log; exact L_info | intros _].
  apply appends_bind; [apply appends_with_tqdm, appends_apply_files; exact Ha | intros _].
  apply appends_bind; [apply appends_waits; exact Hw | intros _].
  repeat (apply appends_bind; [apply appends_log; assumption | intros _]).
  apply appends_log; assumption.
Qed.

(** From the start of the process. *)
Lemma appends_invocation lvl k :
  P version_cmd -> P context_cmd -> appends Q k -> Q (trace (invocation w lvl k)).
Proof.
  intros Hv Hc Hk.
  assert (appends Q (bind (ensure_kubectl w) (fun _ => k))) as H
    by (apply appends_bind; [apply appends_ensure_kubectl; assumption | intros _; exact Hk]).
  destruct (H (mkState [] [lvl])) as (r & evs & R & Qe).
  unfold runs in R.
  assert (invocation w lvl k init_state = (r, extend (mkState [] [lvl]) evs)) as E
    by (etransitivity; [|exact R]; reflexivity).
  unfold trace. rewrite E. exact Qe.
Qed.

Lemma guarded_invocation lvl k e :
  P version_cmd -> P context_cmd -> guarded Q k ->
  outcome (invocation w lvl k) = Raise e -> Q (trace (invocation w lvl k)).
Proof.
  intros Hv Hc Hk.
  assert (guarded Q (bind (ensure_kubectl w) (fun _ => k))) as H
    by (apply guarded_bind; [apply appends_ensure_kubectl; assumption | intros _; exact Hk]).
  destruct (H (mkState [] [lvl])) as (r & evs & R & Qe).
  unfold runs in R.
  assert (invocation w lvl k init_state = (r, extend (mkState [] [lvl]) evs)) as E
    by (etransitivity; [|exact R]; reflexivity).
  unfold outcome, trace. rewrite E. cbn [fst snd]. intros ->. eauto.
Qed.

End Appends.

Lemma no_success_app a b : no_success a -> no_success b -> no_success (a ++ b).
Proof. unfold no_success. intros Ha Hb. apply Forall_app. auto. Qed.

Lemma no_success_bar total desc evs :
  no_success evs -> no_success (BarOpen total desc :: evs ++ [BarClose]).
Proof.
  unfold no_success. intros H. constructor; [reflexivity|].
  apply Forall_app. split; [exact H | repeat constructor].
Qed.

Lemma no_success_log lvl msg exc : lvl <> SUCCESS -> no_success [Log lvl msg exc].
Proof.
  intros H. constructor; [|constructor]. destruct lvl; try reflexivity. contradiction.
Qed.

Lemma no_success_not_in evs msg exc : no_success evs -> ~ In (Log SUCCESS msg exc) evs.
Proof.
  unfold no_success. rewrite Forall_forall. intros H Hin.
  specialize (H _ Hin). discriminate H.
Qed.

(** Side conditions of the [Appends] lemmas for [no_success]. *)
Ltac no_success_side :=
  first [ exact (Forall_nil _)
        | exact no_success_app
        | exact no_success_bar
        | exact no_success_log
        | discriminate
        | exact I
        | intros; exact I
        | intros; repeat constructor ].

(** X6.  [deploy] writes a record at level SUCCESS only when it is about
    to return from a real deploy of the monitoring stack: a trace that holds
    one belongs to a non dry-run invocation for "monitoring" that returned
    normally.  A dry run, an unknown stack and every failing run (preflight,
    apply or readiness wait) never report success. *)
Theorem success_is_reported_only_on_success w stack dry timeout verbose msg exc :
  In (Log SUCCESS msg exc) (trace (deploy w stack dry timeout verbose)) ->
  outcome (deploy w stack dry timeout verbose) = Ok tt
  /\ dry = false
  /\ stack = "monitoring".
Proof.
  rewrite deploy_unfold. intros Hin.
  assert (guarded no_success (deploy_after_preflight w stack dry timeout)
          /\ (dry = true \/ stack <> "monitoring" ->
              appends no_success (deploy_after_preflight w stack dry timeout))) as [Hg Ha]
    by (apply guarded_deploy_after with (P := fun _ => True) (L := fun l => l <> SUCCESS);
        no_success_side).
  assert (forall k, appends no_success k ->
            no_success (trace (invocation w (verbosity verbose) k))) as Hinv
    by (intros k Hk;
        apply appends_invocation with (P := fun _ => True) (L := fun l => l <> SUCCESS);
        solve [no_success_side | exact Hk]).
  assert (dry = false /\ stack = "monitoring") as [-> ->].
  { destruct dry.
    - exfalso. refine (no_success_not_in _ msg exc _ Hin). apply Hinv. auto.
    - destruct (String.eqb_spec stack "monitoring") as [E|N]; [auto|].
      exfalso. refine (no_success_not_in _ msg exc _ Hin). apply Hinv. auto. }
  repeat split.
  destruct (outcome (invocation w (verbosity verbose)
                       (deploy_after_preflight w "monitoring" false timeout)))
    as [[]|e] eqn:Ho; [reflexivity|].
  exfalso. refine (no_success_not_in _ msg exc _ Hin).
  apply guarded_invocation with (P := fun _ => True) (L := fun l => l <> SUCCESS) (e := e);
    solve [no_success_side | exact Hg | exact Ho].
Qed.

Lemma success_is_reported_only_on_success_witness :
  outcome (deploy world_ok "monitoring" false "300s" false) = Ok tt.
Proof.
  refine (proj1 (success_is_reported_only_on_success world_ok "monitoring" false "300s" false
                   "部署完成！" None _)).
  vm_compute. repeat (first [left; reflexivity | right]).
Defined.

Lemma open_bars_app a b d :
  open_bars (a ++ b) d
  = match open_bars a d with
    | Some d' => open_bars b d'
    | None => None
    end.
Proof.
  revert d. induction a as [|e a IH]; intros d; [reflexivity|].
  destruct e; cbn [app open_bars]; try apply IH.
  destruct d; [reflexivity | apply IH].
Qed.

Lemma bars_balanced_app a b : bars_balanced a -> bars_balanced b -> bars_balanced (a ++ b).
Proof. intros Ha Hb d. rewrite open_bars_app, Ha. apply Hb. Qed.

Lemma bars_balanced_bar total desc evs :
  bars_balanced evs -> bars_balanced (BarOpen total desc :: evs ++ [BarClose]).
Proof.
  intros H d. cbn [open_bars]. rewrite open_bars_app, H. reflexivity.
Qed.

(** Side conditions of the [Appends] lemmas for [bars_balanced]. *)
Ltac bars_side :=
  first [ exact bars_balanced_app
        | exact bars_balanced_bar
        | exact I
        | intros; exact I
        | intros; intro; reflexivity ].

(** X7.  The progress bars of [deploy] are always closed again: in the
    trace of every invocation, successful or not, each bar that was opened
    is closed later and no bar is closed that was not open, so also when a
    manifest fails or a readiness wait raises inside the bar. *)
Theorem progress_bars_are_closed w stack dry timeout verbose :
  open_bars (trace (deploy w stack dry timeout verbose)) 0 = Some 0.
Proof.
  rewrite deploy_unfold.
  assert (bars_balanced (trace (invocation w (verbosity verbose)
                                  (deploy_after_preflight w stack dry timeout)))) as H.
  { apply appends_invocation with (P := fun _ => True) (L := fun _ => True);
      try solve [bars_side].
    apply appends_deploy_after with (P := fun _ => True) (L := fun _ => True);
      solve [bars_side]. }
  apply H.
Qed.

(** X8.  Whatever the stack code, the options and the world, every command
    [deploy] sends is one of: the client version query, the current-context
    query, a kubectl apply -f, or a kubectl wait in namespace monitoring.  It
    never sends a kubectl delete and never queries namespaces: nothing that
    was applied is taken back. *)
Theorem deploy_sends_only_apply_and_wait w stack dry timeout verbose :
  Forall deploy_command (commands (deploy w stack dry timeout verbose))
  /\ (forall c, In c (commands (deploy w stack dry timeout verbose)) ->
        nth 1 c EmptyString <> "delete" /\ nth 1 c EmptyString <> "get").
Proof.
  assert (Forall deploy_command (commands (deploy w stack dry timeout verbose))) as F.
  { rewrite deploy_unfold.
    assert (tracked deploy_command
              (invocation w (verbosity verbose)
                 (deploy_after_preflight w stack dry timeout))) as T.
    { apply tracked_invocation.
      - left. reflexivity.
      - right. left. reflexivity.
      - apply tracked_deploy_after.
        + intros fp. right. right. left. eauto.
        + intros _ label t. right. right. right. eauto. }
    destruct (tracked_grows _ _ T init_state) as (r & evs & k & E & F).
    unfold commands, trace. rewrite E. exact F. }
  split; [exact F|].
  intros c Hc. rewrite Forall_forall in F.
  destruct (F c Hc) as [->|[->|[[fp [d ->]]|[label [t ->]]]]];
    split; discriminate.
Qed.

(** X9.  Every command [delete_stack] sends is one of four: the two
    preflight queries, the existence query for the given stack code, and the
    deletion of the namespace "monitoring".  It never applies a manifest,
    never waits, and never deletes a namespace of another name, whatever
    stack code it was given. *)
Theorem delete_sends_only_query_and_delete w stack verbose :
  Forall (delete_command stack) (commands (delete_stack w stack verbose))
  /\ (forall c, In c (commands (delete_stack w stack verbose)) ->
        nth 1 c EmptyString <> "apply" /\ nth 1 c EmptyString <> "wait")
  /\ (forall ns, In ["kubectl"; "delete"; "namespaces"; ns]
                    (commands (delete_stack w stack verbose)) -> ns = "monitoring").
Proof.
  assert (Forall (delete_command stack) (commands (delete_stack w stack verbose))) as F.
  { rewrite delete_stack_unfold.
    assert (tracked (delete_command stack)
              (invocation w (verbosity verbose) (delete_after_preflight w stack))) as T.
    { apply tracked_invocation.
      - left. reflexivity.
      - right. left. reflexivity.
      - apply tracked_delete_after.
        + right. right. left. reflexivity.
        + right. right. right. reflexivity. }
    destruct (tracked_grows _ _ T init_state) as (r & evs & k & E & F).
    unfold commands, trace. rewrite E. exact F. }
  rewrite Forall_forall in F. repeat apply conj.
  - apply Forall_forall. exact F.
  - intros c Hc. destruct (F c Hc) as [-> | [-> | [-> | ->]]]; split; discriminate.
  - intros ns Hc. destruct (F _ Hc) as [H|[H|[H|H]]]; try discriminate H.
    injection H as ->. reflexivity.
Qed.

(** ** [delete_stack] on an existing namespace *)

Section DeleteMonitoring.

Variable w : World.

Lemma runs_delete_monitoring s err :
  history s = preflight ->
  respond w preflight (get_namespace_cmd "monitoring") = Completed 0 err ->
  let res := respond w (preflight ++ [get_namespace_cmd "monitoring"]) delete_namespace_cmd in
  exists evs,
    runs (delete_after_preflight w "monitoring") s
         (match proc_outcome res delete_namespace_cmd true with
          | Ok _ => Ok tt
          | Raise e => Raise e
          end) evs
    /\ cmds_of evs = [get_namespace_cmd "monitoring"; delete_namespace_cmd]
    /\ incl (log_events (sinks s) INFO "开始删除 Prometheus 与 Grafana 监控栈..." None) evs.
Proof.
  intros Hs Hr res. unfold delete_after_preflight.
  pose proof (runs_run_cmd w (get_namespace_cmd "monitoring") None false s) as R.
  rewrite Hs in R. fold (probe_events w (sinks s) "monitoring") in R.
  rewrite Hr in R. unfold proc_outcome in R. cbn [andb] in R.
  set (s1 := extend (extend s (probe_events w (sinks s) "monitoring"))
                    (log_events (sinks s) INFO "开始删除 Prometheus 与 Grafana 监控栈..." None)).
  pose proof (runs_run_cmd w delete_namespace_cmd None true s1) as R2.
  assert (history s1 = preflight ++ [get_namespace_cmd "monitoring"]) as Hh.
  { subst s1. rewrite !history_extend, Hs, cmds_of_probe_events, cmds_of_log_events.
    rewrite app_nil_r. reflexivity. }
  rewrite Hh in R2. fold res in R2.
  eexists. split; [|split].
  - eapply runs_bind_ok; [exact R|]. cbn [returncode Z.eqb negb].
    change (String.eqb "monitoring" "monitoring") with true. cbv iota.
    eapply runs_bind_ok.
    { apply (runs_log INFO _ None (extend s (probe_events w (sinks s) "monitoring"))). }
    fold s1.
    destruct (proc_outcome res delete_namespace_cmd true) as [cp|e].
    + eapply runs_then_ret. exact R2.
    + eapply runs_bind_raise. exact R2.
  - cmds_norm. rewrite cmds_of_probe_events. reflexivity.
  - intros x Hx. rewrite !in_app_iff. right. left. exact Hx.
Qed.

End DeleteMonitoring.

(** X10.  [delete_stack] for "monitoring", the preflight passed and the
    namespace found: it logs that deletion starts and sends, after the
    existence query, the one command kubectl delete namespaces monitoring.
    When that command exits 0 the invocation returns (exit code 0).  When it
    does not, the [CalledProcessError] is not caught: the process ends with
    exit status 1 and no exit code of the CLI's own. *)
Theorem delete_monitoring_deletes_namespace w verbose err :
  preflight_ok w = true ->
  respond w preflight (get_namespace_cmd "monitoring") = Completed 0 err ->
  let res := respond w (preflight ++ [get_namespace_cmd "monitoring"]) delete_namespace_cmd in
  let m := delete_stack w "monitoring" verbose in
  commands m = preflight ++ [get_namespace_cmd "monitoring"; delete_namespace_cmd]
  /\ In (Log INFO "开始删除 Prometheus 与 Grafana 监控栈..." None) (trace m)
  /\ (succeeded res = true -> outcome m = Ok tt /\ exit_status (outcome m) = 0%Z)
  /\ (succeeded res = false ->
      outcome m = Raise (check_failure res delete_namespace_cmd)
      /\ exit_status (outcome m) = 1%Z).
Proof.
  intros Hp Hr res m.
  destruct (runs_delete_monitoring w (after_preflight w (verbosity verbose)) err
              (history_after_preflight w _) Hr) as (evs & R & C & Li).
  fold res in R.
  destruct (invocation_passes w _ _ _ _ Hp R) as [Ho [Ht Hc]].
  subst m. rewrite delete_stack_unfold, Ho, Ht, Hc, C.
  repeat apply conj.
  - reflexivity.
  - apply in_or_app. right. apply Li.
    change (sinks (after_preflight w (verbosity verbose))) with [verbosity verbose].
    rewrite log_events_verbosity by discriminate. left. reflexivity.
  - intros H. rewrite (succeeded_outcome _ _ H). auto.
  - intros H. rewrite (failed_outcome _ _ H). split; [reflexivity|].
    destruct res; reflexivity.
Qed.

Lemma delete_monitoring_deletes_namespace_witness :
  outcome (delete_stack world_ok "monitoring" false) = Ok tt
  /\ outcome (delete_stack world_delete_refused "monitoring" false)
     = Raise (CalledProcessError 1 delete_namespace_cmd).
Proof.
  destruct (delete_monitoring_deletes_namespace world_ok false EmptyString eq_refl eq_refl)
    as (_ & _ & H1 & _).
  destruct (delete_monitoring_deletes_namespace world_delete_refused false EmptyString
              eq_refl eq_refl) as (_ & _ & _ & H2).
  split; [exact (proj1 (H1 eq_refl)) | exact (proj1 (H2 eq_refl))].
Defined.

(** X11.  [delete_stack] sends the namespace deletion exactly when the
    preflight passed, the existence query succeeded and the stack code is
    "monitoring"; it exits with the unknown-stack code 2 exactly when the
    preflight passed, the existence query succeeded and the stack code is
    another one. *)
Theorem delete_stack_deletes_iff w stack verbose :
  let found := succeeded (respond w preflight (get_namespace_cmd stack)) in
  let m := delete_stack w stack verbose in
  (In delete_namespace_cmd (commands m)
   <-> preflight_ok w = true /\ found = true /\ stack = "monitoring")
  /\ (exit_status (outcome m) = 2%Z
      <-> preflight_ok w = true /\ found = true /\ stack <> "monitoring").
Proof.
  intros found m. subst m. rewrite delete_stack_unfold.
  destruct (preflight_ok w) eqn:Hp.
  2:{ destruct (invocation_fails w (verbosity verbose) (delete_after_preflight w stack) Hp)
        as (e & Ho & Hne & Hc).
      rewrite Ho. split; split.
      - intros Hin. exfalso.
        destruct Hc as [Hc|Hc]; rewrite Hc in Hin; simpl in Hin;
          repeat (destruct Hin as [Hin|Hin]; [discriminate Hin|]); exact Hin.
      - intros [H _]. discriminate H.
      - intros H. exfalso. destruct e; simpl in H; try discriminate H.
        apply (Hne code). reflexivity.
      - intros [H _]. discriminate H. }
  set (s0 := after_preflight w (verbosity verbose)).
  pose proof (history_after_preflight w (verbosity verbose)) as Hs0. fold s0 in Hs0.
  destruct (respond w preflight (get_namespace_cmd stack)) as [rc err|errno msg] eqn:E.
  - destruct (Z.eq_dec rc 0) as [->|N].
    + destruct (String.eqb_spec stack "monitoring") as [->|Hne].
      * destruct (runs_delete_monitoring w s0 err Hs0 E) as (evs & R & C & _).
        destruct (invocation_passes w _ _ _ _ Hp R) as [Ho [_ Hc]].
        rewrite Ho, Hc, C. subst found. cbn [succeeded Z.eqb]. split; split.
        -- auto.
        -- intros _. apply in_or_app. right. right. left. reflexivity.
        -- intros H. exfalso.
           destruct (proc_outcome _ delete_namespace_cmd true) as [cp|e] eqn:Eo;
             [discriminate H|].
           unfold proc_outcome in Eo.
           destruct (respond w (preflight ++ [get_namespace_cmd "monitoring"])
                       delete_namespace_cmd) as [rc' err'|n' m'].
           ++ destruct (true && negb (Z.eqb rc' 0)); [|discriminate Eo].
              injection Eo as <-. discriminate H.
           ++ injection Eo as <-. discriminate H.
        -- intros (_ & _ & H). contradiction.
      * pose proof (runs_delete_unknown w stack s0 err Hs0 Hne E) as R.
        destruct (invocation_passes w _ _ _ _ Hp R) as [Ho [_ Hc]].
        rewrite Ho, Hc. cmds_norm. rewrite cmds_of_probe_events, app_nil_r.
        subst found. cbn [succeeded Z.eqb]. split; split.
        -- intros Hin. exfalso. exact (probe_is_not_delete stack Hin).
        -- intros (_ & _ & H). contradiction.
        -- auto.
        -- reflexivity.
    + pose proof (runs_delete_absent w stack s0 rc err Hs0 E N) as R.
      destruct (invocation_passes w _ _ _ _ Hp R) as [Ho [_ Hc]].
      rewrite Ho, Hc. cmds_norm. rewrite cmds_of_probe_events, app_nil_r.
      assert (found = false) as Hf
        by (subst found; simpl; apply Z.eqb_neq; exact N).
      rewrite Hf. split; split.
      * intros Hin. exfalso. exact (probe_is_not_delete stack Hin).
      * intros (_ & H & _). discriminate H.
      * intros H. discriminate H.
      * intros (_ & H & _). discriminate H.
  - pose proof (runs_delete_not_spawned w stack s0 errno msg Hs0 E) as R.
    destruct (invocation_passes w _ _ _ _ Hp R) as [Ho [_ Hc]].
    rewrite Ho, Hc, cmds_of_probe_events.
    subst found. cbn [succeeded Z.eqb]. split; split.
    + intros Hin. exfalso. exact (probe_is_not_delete stack Hin).
    + intros (_ & H & _). discriminate H.
    + intros H. discriminate H.
    + intros (_ & H & _). discriminate H.
Qed.

(** ** [deploy]: readiness waits and exit status *)

Section Readiness.

Variable w : World.

(** The readiness phase, case by case, with what it leaves in the trace. *)
Lemma runs_deploy_finish_cases timeout s :
  let w1 := wait_cmd "app=prometheus" "monitoring" timeout in
  let w2 := wait_cmd "app=grafana" "monitoring" timeout in
  let res1 := respond w (history s) w1 in
  let res2 := respond w (history s ++ [w1]) w2 in
  exists evs,
    runs (deploy_finish w false timeout) s
         (if succeeded res1
          then if succeeded res2 then Ok tt else Raise (check_failure res2 w2)
          else Raise (check_failure res1 w1)) evs
    /\ cmds_of evs = w1 :: (if succeeded res1 then [w2] else [])
    /\ progress_of evs = (if succeeded res1 then if succeeded res2 then 2 else 1 else 0)
    /\ (succeeded res1 && succeeded res2 = true ->
        incl (log_events (sinks s) SUCCESS "部署完成！" None
                ++ log_events (sinks s) INFO "Prometheus: http://k8s.local/prometheus" None
                ++ log_events (sinks s) INFO "Grafana:    http://k8s.local/grafana" None) evs).
Proof.
  intros w1 w2 res1 res2. unfold deploy_finish. cbn [negb].
  set (sb := extend s [BarOpen 2 "等待Pod就绪"]).
  set (sa := extend sb [Write "等待 Prometheus Pod 就绪..."]).
  assert (history sa = history s) as Ha.
  { subst sa sb. rewrite !history_extend. simpl. rewrite !app_nil_r. reflexivity. }
  pose proof (runs_run_cmd w w1 None true sa) as R1. rewrite Ha in R1. fold res1 in R1.
  set (ev1 := log_events (sinks sa) DEBUG (debug_line w1 None) None
                ++ [Run w1 None res1]) in *.
  set (sc := extend (extend (extend sa ev1) [BarUpdate 1])
                    [Write "等待 Grafana Pod 就绪..."]).
  assert (history sc = history s ++ [w1]) as Hc.
  { subst sc ev1. rewrite !history_extend, Ha, cmds_of_app, cmds_of_log_events.
    simpl. rewrite !app_nil_r. reflexivity. }
  pose proof (runs_run_cmd w w2 None true sc) as R2. rewrite Hc in R2. fold res2 in R2.
  set (ev2 := log_events (sinks sc) DEBUG (debug_line w2 None) None
                ++ [Run w2 None res2]) in *.
  assert (cmds_of ev1 = [w1]) as C1
    by (subst ev1; rewrite cmds_of_app, cmds_of_log_events; reflexivity).
  assert (cmds_of ev2 = [w2]) as C2
    by (subst ev2; rewrite cmds_of_app, cmds_of_log_events; reflexivity).
  assert (progress_of ev1 = 0) as P1
    by (subst ev1; rewrite progress_of_app, progress_of_log_events; reflexivity).
  assert (progress_of ev2 = 0) as P2
    by (subst ev2; rewrite progress_of_app, progress_of_log_events; reflexivity).
  clearbody ev1 ev2.
  destruct (succeeded res1) eqn:O1.
  - rewrite (succeeded_outcome _ w1 O1) in R1.
    destruct (succeeded res2) eqn:O2.
    + rewrite (succeeded_outcome _ w2 O2) in R2.
      eexists. split; [|split; [|split]].
      * eapply runs_bind_ok.
        { apply runs_with_tqdm. fold sb.
          eapply runs_bind_ok; [apply runs_emit|]. fold sa.
          eapply runs_bind_ok; [unfold kubectl_wait; eapply runs_then_ret; exact R1|].
          eapply runs_bind_ok; [apply runs_emit|].
          eapply runs_bind_ok; [apply runs_emit|]. fold sc.
          eapply runs_bind_ok; [unfold kubectl_wait; eapply runs_then_ret; exact R2|].
          apply runs_emit. }
        eapply runs_bind_ok; [apply runs_log|].
        eapply runs_bind_ok; [apply runs_log|].
        eapply runs_bind_ok; [apply runs_log|].
        apply runs_log.
      * cmds_norm. rewrite C1, C2. reflexivity.
      * progress_norm. rewrite P1, P2. reflexivity.
      * intros _ x Hx. autorewrite with trace. cbn [sinks extend].
        rewrite !in_app_iff in Hx. rewrite !in_app_iff. simpl In. tauto.
    + rewrite (failed_outcome _ w2 O2) in R2.
      eexists. split; [|split; [|split]].
      * eapply runs_bind_raise.
        apply runs_with_tqdm. fold sb.
        eapply runs_bind_ok; [apply runs_emit|]. fold sa.
        eapply runs_bind_ok; [unfold kubectl_wait; eapply runs_then_ret; exact R1|].
        eapply runs_bind_ok; [apply runs_emit|].
        eapply runs_bind_ok; [apply runs_emit|]. fold sc.
        eapply runs_bind_raise. unfold kubectl_wait. eapply runs_bind_raise. exact R2.
      * cmds_norm. rewrite C1, C2. reflexivity.
      * progress_norm. rewrite P1, P2. reflexivity.
      * discriminate.
  - rewrite (failed_outcome _ w1 O1) in R1.
    eexists. split; [|split; [|split]].
    + eapply runs_bind_raise.
      apply runs_with_tqdm. fold sb.
      eapply runs_bind_ok; [apply runs_emit|]. fold sa.
      eapply runs_bind_raise. unfold kubectl_wait. eapply runs_bind_raise. exact R1.
    + cmds_norm. rewrite C1. reflexivity.
    + progress_norm. rewrite P1. reflexivity.
    + discriminate.
Qed.

(** [deploy] once every manifest of the monitoring stack has gone in. *)
Lemma deploy_monitoring_outcome dry timeout s :
  history s = preflight ->
  exists r evs,
    runs (deploy_after_preflight w "monitoring" dry timeout) s r evs
    /\ (r = Ok tt \/ r = Raise (Exit 1)
        \/ exists e, r = Raise e /\ forall code, e <> Exit code).
Proof.
  intros Hs. rewrite deploy_monitoring_unfold.
  set (l0 := log_events (sinks s) INFO "开始部署 Prometheus 与 Grafana 监控栈..." None).
  set (bar := BarOpen (length (monitoring_paths w)) "应用清单").
  destruct (apply_files_progress w (monitoring_paths w) dry (extend (extend s l0) [bar]))
    as (r1 & e1 & R1 & _ & H1).
  destruct H1 as [[-> _]|[-> _]].
  - assert (exists r e2,
              runs (deploy_finish w dry timeout)
                   (extend (extend s l0) (bar :: e1 ++ [BarClose])) r e2
              /\ (r = Ok tt \/ r = Raise (Exit 1)
                  \/ exists e, r = Raise e /\ forall code, e <> Exit code))
      as (r & e2 & R2 & H2).
    { destruct dry.
      - do 2 eexists. split; [apply runs_log | left; reflexivity].
      - destruct (runs_deploy_finish_cases timeout
                    (extend (extend s l0) (bar :: e1 ++ [BarClose]))) as (evs & R & _).
        do 2 eexists. split; [exact R|].
        destruct (succeeded _).
        + destruct (succeeded _); [left; reflexivity|].
          right. right. eexists. split; [reflexivity|].
          destruct (respond _ _ _); discriminate.
        + right. right. eexists. split; [reflexivity|].
          destruct (respond _ _ _); discriminate. }
    exists r. eexists. split; [|exact H2].
    eapply runs_bind_ok; [apply runs_log|]. fold l0.
    eapply runs_bind_ok; [apply runs_with_tqdm; exact R1 | exact R2].
  - exists (Raise (Exit 1)). eexists. split; [|right; left; reflexivity].
    eapply runs_bind_ok; [apply runs_log|]. fold l0.
    eapply runs_bind_raise. apply runs_with_tqdm. exact R1.
Qed.

End Readiness.

(** X12.  The exit status of [deploy] is 0, 1 or 2.  It is 2 exactly when
    the preflight passed and the stack code is not "monitoring"; it is 0
    exactly when the command returned; every other end (a failed preflight,
    a manifest that fails, a readiness wait that fails) is exit status 1. *)
Theorem deploy_exit_status w stack dry timeout verbose :
  let m := deploy w stack dry timeout verbose in
  (exit_status (outcome m) = 0%Z \/ exit_status (outcome m) = 1%Z
   \/ exit_status (outcome m) = 2%Z)
  /\ (exit_status (outcome m) = 2%Z <-> preflight_ok w = true /\ stack <> "monitoring")
  /\ (exit_status (outcome m) = 0%Z <-> outcome m = Ok tt).
Proof.
  intros m. subst m. rewrite deploy_unfold.
  assert (exists r,
            outcome (invocation w (verbosity verbose)
                       (deploy_after_preflight w stack dry timeout)) = r
            /\ (r = Raise (Exit 2) /\ preflight_ok w = true /\ stack <> "monitoring"
                \/ (r = Ok tt \/ r = Raise (Exit 1)
                    \/ exists e, r = Raise e /\ forall code, e <> Exit code)
                   /\ ~ (preflight_ok w = true /\ stack <> "monitoring")))
    as (r & -> & H).
  { destruct (preflight_ok w) eqn:Hp.
    - destruct (String.eqb_spec stack "monitoring") as [->|Hne].
      + destruct (deploy_monitoring_outcome w dry timeout
                    (after_preflight w (verbosity verbose))
                    (history_after_preflight w _)) as (r & evs & R & H).
        destruct (invocation_passes w _ _ _ _ Hp R) as [Ho _].
        exists r. split; [exact Ho|]. right. split; [exact H|].
        intros [_ N]. contradiction.
      + assert (runs (deploy_after_preflight w stack dry timeout)
                  (after_preflight w (verbosity verbose)) (Raise (Exit 2))
                  (log_events [verbosity verbose] ERROR (unknown_error stack) None)) as Rd.
        { rewrite (deploy_unknown_unfold w stack dry timeout Hne).
          unfold after_preflight.
          apply (runs_log_raise ERROR _ None (Exit 2) (mkState [] [verbosity verbose])). }
        destruct (invocation_passes w _ _ _ _ Hp Rd) as [Ho _].
        exists (Raise (Exit 2)). split; [exact Ho|]. left. auto.
    - destruct (invocation_fails w (verbosity verbose)
                  (deploy_after_preflight w stack dry timeout) Hp) as (e & Ho & Hne & _).
      exists (Raise e). split; [exact Ho|]. right. split; [eauto|].
      intros [H _]. discriminate H. }
  destruct H as [(-> & Hp & Hne)|[[->|[->|(e & -> & He)]] Hn]].
  - cbn [exit_status]. split; [right; right; reflexivity|].
    split; (split; [intros H; try discriminate H; auto | intros H; try discriminate H; auto]).
  - cbn [exit_status]. split; [left; reflexivity|].
    split; (split; [intros H; try discriminate H; auto | intros H; try contradiction; auto]).
  - cbn [exit_status]. split; [right; left; reflexivity|].
    split; (split; [intros H; discriminate H | intros H; try contradiction; discriminate H]).
  - assert (exit_status (@Raise unit e) = 1%Z) as E1.
    { destruct e; try reflexivity. exfalso. apply (He code). reflexivity. }
    rewrite E1. split; [right; left; reflexivity|].
    split; (split; [intros H; discriminate H | intros H; try contradiction; discriminate H]).
Qed.

Lemma wait_cmd_not_applied timeout label other fps dry :
  label <> other ->
  ~ In (wait_cmd label "monitoring" timeout)
       ((preflight ++ map (fun fp => apply_cmd fp dry) fps)
          ++ [wait_cmd other "monitoring" timeout]).
Proof.
  intros Hne Hin. apply in_app_or in Hin. destruct Hin as [Hin|[Hin|[]]].
  - apply in_app_or in Hin. destruct Hin as [[H|[H|[]]]|Hin]; try discriminate H.
    apply in_map_iff in Hin. destruct Hin as [fp [H _]].
    unfold apply_cmd, wait_cmd in H. simpl in H. discriminate H.
  - unfold wait_cmd in Hin. injection Hin as H. apply Hne. symmetry. exact H.
Qed.

Lemma wait_failure_message w label timeout rc :
  let cmd := wait_cmd label "monitoring" timeout in
  includes (repr_str label) (str_exc w (CalledProcessError rc cmd))
  /\ includes (repr_str ("--timeout=" +++ timeout)) (str_exc w (CalledProcessError rc cmd)).
Proof.
  intros cmd.
  assert (includes (repr_list cmd) (str_exc w (CalledProcessError rc cmd))) as H.
  { unfold str_exc. destruct (Z.ltb rc 0); [destruct (signal_repr w (- rc))|];
      apply includes_app_l, includes_app_r, includes_refl. }
  split; (eapply includes_trans; [|exact H]); apply includes_repr_list;
    unfold cmd, wait_cmd; simpl; auto 10.
Qed.

(** X13.  A readiness wait that fails ends a real [deploy] with the
    exception of that wait, uncaught: the exit status is 1 and no exit code
    of the CLI's own.  When the prometheus wait fails the grafana wait is
    never sent; when the prometheus wait succeeds and the grafana wait
    fails, both were sent in that order.  For a wait that exited non-zero
    the exception's message names the label selector and the timeout. *)
Theorem readiness_wait_failure w timeout verbose :
  preflight_ok w = true ->
  applies_ok w preflight (monitoring_paths w) false = true ->
  let applied := preflight ++ map (fun fp => apply_cmd fp false) (monitoring_paths w) in
  let w1 := wait_cmd "app=prometheus" "monitoring" timeout in
  let w2 := wait_cmd "app=grafana" "monitoring" timeout in
  let res1 := respond w applied w1 in
  let res2 := respond w (applied ++ [w1]) w2 in
  let m := deploy w "monitoring" false timeout verbose in
  (succeeded res1 = false ->
     outcome m = Raise (check_failure res1 w1)
     /\ exit_status (outcome m) = 1%Z
     /\ commands m = applied ++ [w1]
     /\ ~ In w2 (commands m))
  /\ (succeeded res1 = true -> succeeded res2 = false ->
      outcome m = Raise (check_failure res2 w2)
      /\ exit_status (outcome m) = 1%Z
      /\ commands m = applied ++ [w1; w2])
  /\ (forall rc err, res1 = Completed rc err ->
        includes (repr_str "app=prometheus") (str_exc w (check_failure res1 w1))
        /\ includes (repr_str ("--timeout=" +++ timeout))
                    (str_exc w (check_failure res1 w1)))
  /\ (forall rc err, res2 = Completed rc err ->
        includes (repr_str "app=grafana") (str_exc w (check_failure res2 w2))
        /\ includes (repr_str ("--timeout=" +++ timeout))
                    (str_exc w (check_failure res2 w2))).
Proof.
  intros Hp Hok applied w1 w2 res1 res2 m.
  destruct (runs_monitoring_applied w false timeout (after_preflight w (verbosity verbose))
              (history_after_preflight w _) Hok) as [e1 [C1 K]].
  destruct (runs_deploy_finish_cases w timeout
              (extend (after_preflight w (verbosity verbose)) e1))
    as (e2 & R & C2 & _).
  rewrite history_extend, history_after_preflight, C1 in R, C2.
  fold applied in R, C2. fold w1 w2 in R, C2. fold res1 res2 in R, C2.
  destruct (invocation_passes w _ _ _ _ Hp (K _ _ R)) as [Ho [_ Hc]].
  subst m. rewrite deploy_unfold, Ho, Hc. cmds_norm. rewrite C1, C2.
  fold applied.
  assert (forall res cmd, exit_status (@Raise unit (check_failure res cmd)) = 1%Z) as E1
    by (intros [|] cmd; reflexivity).
  repeat apply conj.
  - intros H1. rewrite H1. repeat apply conj; auto.
    intros Hin.
    apply (wait_cmd_not_applied timeout "app=grafana" "app=prometheus"
             (monitoring_paths w) false); [discriminate|].
    rewrite <- app_assoc. exact Hin.
  - intros H1 H2. rewrite H1, H2. repeat apply conj; auto.
  - intros rc err E. rewrite E. apply wait_failure_message.
  - intros rc err E. rewrite E. apply wait_failure_message.
Qed.

Lemma readiness_wait_failure_witness :
  outcome (deploy world_wait_timeout "monitoring" false "300s" false)
  = Raise (CalledProcessError 1 (wait_cmd "app=prometheus" "monitoring" "300s")).
Proof.
  destruct (readiness_wait_failure world_wait_timeout "300s" false eq_refl eq_refl)
    as (H & _).
  exact (proj1 (H eq_refl)).
Defined.

(** ** A complete run *)

Lemma applied_count_all w fps dry : forall h,
  applies_ok w h fps dry = true -> applied_count w h fps dry = length fps.
Proof.
  induction fps as [|fp rest IH]; intros h H; [reflexivity|].
  cbn [applies_ok] in H. apply andb_prop in H. destruct H as [H1 H2].
  cbn [applied_count length]. rewrite H1, (IH _ H2). reflexivity.
Qed.

Lemma progress_of_preflight_events w lvl : progress_of (preflight_events w lvl) = 0.
Proof. unfold preflight_events. progress_norm. reflexivity. Qed.

(** The apply phase of a deploy whose manifests all go in, with the units
    of progress it shows. *)
Lemma runs_monitoring_applied_progress w dry timeout s :
  history s = preflight ->
  applies_ok w preflight (monitoring_paths w) dry = true ->
  exists e1,
    cmds_of e1 = map (fun fp => apply_cmd fp dry) (monitoring_paths w)
    /\ progress_of e1 = length (monitoring_paths w)
    /\ In (BarOpen (length (monitoring_paths w)) "应用清单") e1
    /\ forall r e2,
         runs (deploy_finish w dry timeout) (extend s e1) r e2 ->
         runs (deploy_after_preflight w "monitoring" dry timeout) s r (e1 ++ e2).
Proof.
  intros Hs Hok. rewrite deploy_monitoring_unfold.
  set (l0 := log_events (sinks s) INFO "开始部署 Prometheus 与 Grafana 监控栈..." None).
  set (bar := BarOpen (length (monitoring_paths w)) "应用清单").
  assert (history (extend (extend s l0) [bar]) = preflight) as Hh.
  { rewrite !history_extend. subst l0. rewrite cmds_of_log_events. simpl.
    rewrite !app_nil_r. exact Hs. }
  destruct (apply_files_all_ok w (monitoring_paths w) dry (extend (extend s l0) [bar]))
    as [ev [R C]].
  { rewrite Hh. exact Hok. }
  destruct (apply_files_progress w (monitoring_paths w) dry (extend (extend s l0) [bar]))
    as (r' & ev' & R' & P' & _).
  destruct (runs_functional _ _ _ _ _ _ R R') as [_ <-].
  rewrite Hh, (applied_count_all _ _ _ _ Hok) in P'.
  exists (l0 ++ bar :: ev ++ [BarClose]). repeat apply conj.
  - subst l0. cmds_norm. rewrite C, app_nil_r. reflexivity.
  - subst l0 bar. progress_norm. rewrite P'. lia.
  - apply in_or_app. right. left. reflexivity.
  - intros r e2 R2. rewrite <- app_assoc.
    eapply runs_bind_ok; [apply runs_log|]. fold l0.
    eapply runs_bind_ok.
    + apply runs_with_tqdm. exact R.
    + rewrite extend_extend. exact R2.
Qed.

(** X14.  A deploy of the monitoring stack on which nothing fails: the bar
    of the apply phase is opened with the number of manifests as its total
    and the progress shown adds up to one unit per manifest, plus one per
    readiness wait in a real run.  A real run then logs the SUCCESS record
    and the two access URLs; a dry run logs instead that nothing was
    created, and neither the SUCCESS record nor a wait. *)
Theorem complete_deploy_report w dry timeout verbose :
  preflight_ok w = true ->
  applies_ok w preflight (monitoring_paths w) dry = true ->
  let applied := preflight ++ map (fun fp => apply_cmd fp dry) (monitoring_paths w) in
  let w1 := wait_cmd "app=prometheus" "monitoring" timeout in
  let w2 := wait_cmd "app=grafana" "monitoring" timeout in
  (dry = false ->
     succeeded (respond w applied w1) && succeeded (respond w (applied ++ [w1]) w2) = true) ->
  let m := deploy w "monitoring" dry timeout verbose in
  outcome m = Ok tt
  /\ In (BarOpen (length (monitoring_paths w)) "应用清单") (trace m)
  /\ progress_of (trace m) = length (monitoring_paths w) + (if dry then 0 else 2)
  /\ (dry = false ->
      In (Log SUCCESS "部署完成！" None) (trace m)
      /\ In (Log INFO "Prometheus: http://k8s.local/prometheus" None) (trace m)
      /\ In (Log INFO "Grafana:    http://k8s.local/grafana" None) (trace m))
  /\ (dry = true ->
      In (Log INFO "干跑完成，未实际创建资源。" None) (trace m)
      /\ commands m = applied).
Proof.
  intros Hp Hok applied w1 w2 Hwaits m.
  destruct (runs_monitoring_applied_progress w dry timeout
              (after_preflight w (verbosity verbose))
              (history_after_preflight w _) Hok) as (e1 & C1 & P1 & B1 & K).
  destruct dry.
  - specialize (K (Ok tt) _ (runs_log INFO "干跑完成，未实际创建资源。" None _)).
    destruct (invocation_passes w _ _ _ _ Hp K) as [Ho [Ht Hc]].
    subst m. rewrite deploy_unfold, Ho, Ht, Hc.
    repeat apply conj.
    + reflexivity.
    + apply in_or_app. right. apply in_or_app. left. exact B1.
    + progress_norm. rewrite progress_of_preflight_events, P1. lia.
    + discriminate.
    + intros _. split.
      * apply in_or_app. right. apply in_or_app. right.
        change (sinks (extend (after_preflight w (verbosity verbose)) e1))
          with [verbosity verbose].
        rewrite log_events_verbosity by discriminate. left. reflexivity.
      * cmds_norm. rewrite C1, app_nil_r. reflexivity.
  - specialize (Hwaits eq_refl).
    destruct (runs_deploy_finish_cases w timeout
                (extend (after_preflight w (verbosity verbose)) e1))
      as (e2 & R & _ & P2 & L2).
    rewrite history_extend, history_after_preflight, C1 in R, P2, L2.
    fold applied in R, P2, L2. fold w1 w2 in R, P2, L2.
    apply andb_prop in Hwaits. destruct Hwaits as [H1 H2].
    rewrite H1, H2 in R, P2, L2. specialize (L2 eq_refl).
    change (sinks (extend (after_preflight w (verbosity verbose)) e1))
      with [verbosity verbose] in L2.
    rewrite !log_events_verbosity in L2 by discriminate.
    destruct (invocation_passes w _ _ _ _ Hp (K _ _ R)) as [Ho [Ht Hc]].
    subst m. rewrite deploy_unfold, Ho, Ht.
    assert (forall x, In x e2 -> In x (preflight_events w (verbosity verbose) ++ e1 ++ e2))
      as Hin by (intros x Hx; apply in_or_app; right; apply in_or_app; right; exact Hx).
    repeat apply conj.
    + reflexivity.
    + apply in_or_app. right. apply in_or_app. left. exact B1.
    + progress_norm. rewrite progress_of_preflight_events, P1, P2. lia.
    + intros _. repeat apply conj; apply Hin, L2; simpl; auto.
    + discriminate.
Qed.

Lemma complete_deploy_report_witness :
  progress_of (trace (deploy world_ok "monitoring" false "300s" false)) = 10
  /\ progress_of (trace (deploy world_ok "monitoring" true "300s" false)) = 8.
Proof.
  destruct (complete_deploy_report world_ok false "300s" false eq_refl eq_refl
              (fun _ => eq_refl)) as (_ & _ & H1 & _).
  destruct (complete_deploy_report world_ok true "300s" false eq_refl eq_refl)
    as (_ & _ & H2 & _).
  { discriminate. }
  split; [exact H1 | exact H2].
Defined.

(** ** [list] and completion *)

Lemma runs_print_stacks items : forall s,
  runs (print_stacks items) s (Ok tt) (map (fun it => Print (stack_line it)) items).
Proof.
  induction items as [|[code st] rest IH]; intros s.
  - apply runs_ret.
  - cbn [print_stacks map].
    change (Print (stack_line (code, st)) :: map (fun it => Print (stack_line it)) rest)
      with ([Print (stack_line (code, st))] ++ map (fun it => Print (stack_line it)) rest).
    eapply runs_bind_ok; [apply runs_emit | apply IH].
Qed.

(** X15.  [list] prints the heading and then one line per entry of the
    registry, in the registry's order, each made of the stack code and its
    description.  It needs no cluster: it runs no preflight, sends no
    command, writes no log record, and always returns.  The loop does the
    same for any registry. *)
Theorem list_stacks_prints_the_registry s :
  (forall items,
     print_stacks items s
     = (Ok tt, extend s (map (fun it => Print (stack_line it)) items)))
  /\ list_stacks s
     = (Ok tt, extend s (Print "支持的 Kubernetes 栈:"
                          :: map (fun it => Print (stack_line it)) SUPPORT_STACKS))
  /\ history (snd (list_stacks s)) = history s
  /\ sinks (snd (list_stacks s)) = sinks s
  /\ (forall code st, In (code, st) SUPPORT_STACKS ->
        exists line, In (Print line) (events (snd (list_stacks s)))
                     /\ includes code line /\ includes (stack_description st) line).
Proof.
  assert (list_stacks s
          = (Ok tt, extend s (Print "支持的 Kubernetes 栈:"
                               :: map (fun it => Print (stack_line it)) SUPPORT_STACKS))) as E.
  { change (Print "支持的 Kubernetes 栈:"
              :: map (fun it => Print (stack_line it)) SUPPORT_STACKS)
      with ([Print "支持的 Kubernetes 栈:"]
              ++ map (fun it => Print (stack_line it)) SUPPORT_STACKS).
    unfold list_stacks. eapply runs_bind_ok; [apply runs_emit | apply runs_print_stacks]. }
  repeat apply conj.
  - intros items. apply runs_print_stacks.
  - exact E.
  - rewrite E. cbn [snd]. rewrite history_extend.
    assert (forall items, cmds_of (map (fun it => Print (stack_line it)) items) = []) as C
      by (induction items; simpl; auto).
    cbn [cmds_of]. rewrite C. apply app_nil_r.
  - rewrite E. reflexivity.
  - intros code st Hin. exists (stack_line (code, st)). rewrite E. cbn [snd events extend].
    repeat apply conj.
    + apply in_or_app. right. right.
      apply (in_map (fun it => Print (stack_line it))) in Hin. exact Hin.
    + unfold stack_line. cbn [fst snd]. apply includes_app_l, includes_app_r, includes_refl.
    + unfold stack_line. cbn [fst snd]. do 3 apply includes_app_l. apply includes_refl.
Qed.

Lemma lower_char_idem c : lower_char (lower_char c) = lower_char c.
Proof. destruct c as [[] [] [] [] [] [] [] []]; reflexivity. Qed.

Lemma lower_idem s : lower (lower s) = lower s.
Proof.
  induction s as [|c s IH]; [reflexivity|].
  cbn [lower]. rewrite lower_char_idem, IH. reflexivity.
Qed.

Lemma prefix_substring s : forall n, prefix (substring 0 n s) s = true.
Proof.
  induction s as [|c s IH]; intros [|n]; try reflexivity.
  cbn [substring prefix]. destruct (ascii_dec c c) as [_|N]; [apply IH | contradiction].
Qed.

(** X16.  [complete_stack], for a fragment of ASCII text: it offers exactly
    the registered stack codes that start with the fragment once the
    fragment is lower-cased, each at most once and in the registry's order.
    So the letter case of what was typed does not matter, an empty fragment
    offers every registered code, and typing the first characters of a
    registered code, in any letter case, offers that code. *)
Theorem complete_stack_offers typed :
  is_ascii typed = true ->
  (forall key, In key (complete_stack typed)
               <-> In key stack_keys /\ prefix (lower typed) key = true)
  /\ complete_stack (lower typed) = complete_stack typed
  /\ NoDup (complete_stack typed)
  /\ (typed = EmptyString -> complete_stack typed = stack_keys)
  /\ (forall key n, In key stack_keys -> lower typed = substring 0 n key ->
        In key (complete_stack typed)).
Proof.
  intros _.
  assert (forall key, In key (complete_stack typed)
                      <-> In key stack_keys /\ prefix (lower typed) key = true) as Hiff.
  { intros key. unfold complete_stack, startswith. apply filter_In. }
  repeat apply conj.
  - exact Hiff.
  - unfold complete_stack. rewrite lower_idem. reflexivity.
  - unfold complete_stack. apply NoDup_filter.
    unfold stack_keys. simpl.
    repeat (constructor; [simpl; intuition discriminate|]). constructor.
  - intros ->. reflexivity.
  - intros key n Hk Hl. apply Hiff. split; [exact Hk|].
    rewrite Hl. apply prefix_substring.
Qed.

Lemma complete_stack_offers_witness :
  In "monitoring" (complete_stack "MoNi") /\ complete_stack "MoNi" = ["monitoring"].
Proof.
  destruct (complete_stack_offers "MoNi" eq_refl) as (_ & _ & _ & _ & H).
  split; [|reflexivity].
  apply (H "monitoring" 4); [left; reflexivity | reflexivity].
Defined.

Lemma deploy_unknown_outcome w stack dry timeout verbose :
  preflight_ok w = true -> stack <> "monitoring" ->
  outcome (deploy w stack dry timeout verbose) = Raise (Exit 2).
Proof.
  intros Hp Hne. rewrite deploy_unfold.
  assert (runs (deploy_after_preflight w stack dry timeout)
            (after_preflight w (verbosity verbose)) (Raise (Exit 2))
            (log_events [verbosity verbose] ERROR (unknown_error stack) None)) as Rd.
  { rewrite (deploy_unknown_unfold w stack dry timeout Hne).
    unfold after_preflight.
    apply (runs_log_raise ERROR _ None (Exit 2) (mkState [] [verbosity verbose])). }
  destruct (invocation_passes w _ _ _ _ Hp Rd) as [Ho _]. exact Ho.
Qed.

(** X17.  Completion and [list] speak for the whole registry, [deploy] only
    for "monitoring": every code [complete_stack] offers is one of the codes
    [list] prints, and every offered code other than "monitoring" makes
    [deploy], once the preflight has passed, exit with the unknown-stack
    code 2.  Such codes are offered: the empty fragment offers "elk" and
    "hadoop". *)
Theorem completion_offers_rejected_stacks w typed code dry timeout verbose :
  is_ascii typed = true ->
  In code (complete_stack typed) ->
  In code stack_keys
  /\ (exists st, In (code, st) SUPPORT_STACKS)
  /\ (code <> "monitoring" -> preflight_ok w = true ->
      outcome (deploy w code dry timeout verbose) = Raise (Exit 2)
      /\ exit_status (outcome (deploy w code dry timeout verbose)) = 2%Z)
  /\ In "elk" (complete_stack EmptyString)
  /\ In "hadoop" (complete_stack EmptyString).
Proof.
  intros _ Hin.
  assert (In code stack_keys) as Hk
    by (unfold complete_stack in Hin; apply filter_In in Hin; tauto).
  repeat apply conj.
  - exact Hk.
  - unfold stack_keys in Hk. apply in_map_iff in Hk. destruct Hk as [[c st] [<- H]].
    exists st. exact H.
  - intros Hne Hp. rewrite (deploy_unknown_outcome w code dry timeout verbose Hp Hne).
    split; reflexivity.
  - simpl. auto.
  - simpl. auto.
Qed.

Lemma completion_offers_rejected_stacks_witness :
  outcome (deploy world_ok "elk" false "300s" false) = Raise (Exit 2).
Proof.
  assert (In "elk" (complete_stack "EL")) as Hin by (left; reflexivity).
  assert ("elk" <> "monitoring") as N by discriminate.
  destruct (completion_offers_rejected_stacks world_ok "EL" "elk" false "300s" false
              eq_refl Hin) as (_ & _ & H & _).
  exact (proj1 (H N eq_refl)).
Defined.
